(** * esp32_p1meter: the P1 telegram decoder of [src/esp32_p1meter.cpp]

    A shallow embedding of the checksum engine ([crc16]), the delimiter
    search ([findCharInArrayRev]), the value extraction ([isNumber],
    [getValue]), the registry construction ([setupDataReadout]), the per-line
    decoder ([decodeTelegram]) and the session driver ([readP1Serial]),
    followed by the properties of the specification that concern them.

    Conventions of the embedding.
    - A [char] / [unsigned char] is a [Z] in [0, 256); the decoder only
      compares characters with ASCII constants, so the signedness of plain
      [char] plays no role. On the ESP32 [int] and [long] are 32 bits wide,
      [size_t] and [unsigned int] are 32-bit unsigned, and [double] is IEEE
      754 binary64.
    - A [char *] is the list of the bytes from the pointer on; the bytes after
      the end of the list read as NUL.  [readP1Serial] stores a NUL right
      after the line it hands to [decodeTelegram], so for the buffers that
      reach the decoder the byte at index [len] is indeed NUL.
    - A C operation whose behaviour is undefined (a write or a read outside
      an array, a floating value that does not fit the integer type it is
      converted to) yields [Undefined]. *)

From Stdlib Require Import ZArith Lia List String Ascii Bool.
From Stdlib Require Import SpecFloat.
From stdpp Require Import base list.
Import ListNotations.

Local Open Scope Z_scope.

(* ===================================================================== *)
(** * Results of C code with undefined behaviour                          *)
(* ===================================================================== *)

Inductive result (A : Type) : Type :=
| Ret (a : A)
| Undefined.

Arguments Ret {A} a.
Arguments Undefined {A}.

(** Sequencing stops at the first undefined operation; [x ← r; k] is
    stdpp's notation for [mbind]. *)
#[global] Instance result_ret : MRet result := fun A a => Ret a.

#[global] Instance result_bind : MBind result := fun A B k r =>
  match r with
  | Ret a => k a
  | Undefined => Undefined
  end.

(* ===================================================================== *)
(** * Characters and buffers                                              *)
(* ===================================================================== *)

Definition char_of_ascii (a : ascii) : Z := Z.of_N (N_of_ascii a).

(** The bytes of a string literal (without the terminating NUL). *)
Fixpoint str (s : string) : list Z :=
  match s with
  | EmptyString => []
  | String a s' => char_of_ascii a :: str s'
  end.

Definition CR : Z := 13.
Definition LF : Z := 10.

(** [p[i]] for a pointer [p]: NUL after the last byte of the list. *)
Definition char_at (p : list Z) (i : Z) : Z :=
  if i <? 0 then 0 else nth (Z.to_nat i) p 0.

(** [p + i] for a pointer [p] and [0 <= i]. *)
Definition advance (p : list Z) (i : Z) : list Z := drop (Z.to_nat i) p.

Definition is_byte (b : Z) : Prop := 0 <= b < 256.

(* ===================================================================== *)
(** * Checksum engine: [crc16]                                            *)
(* ===================================================================== *)

(** One pass of the inner loop body:
    [if ((crc & 0x0001) != 0) { crc >>= 1; crc ^= 0xA001; } else crc >>= 1;] *)
Definition crc16_round (crc : Z) : Z :=
  if negb (Z.land crc 1 =? 0)
  then Z.lxor (Z.shiftr crc 1) 0xA001
  else Z.shiftr crc 1.

(** [for (int i = 8; i != 0; i--) ...] *)
Fixpoint crc16_rounds (i : nat) (crc : Z) : Z :=
  match i with
  | O => crc
  | S i' => crc16_rounds i' (crc16_round crc)
  end.

(** The body of the outer loop for one byte: [crc ^= (unsigned int)buf[pos]]
    followed by the eight rounds. *)
Definition crc16_byte (crc : Z) (b : Z) : Z :=
  crc16_rounds 8 (Z.lxor crc b).

(** [for (int pos = 0; pos < len; pos++)]: [n] iterations are left. *)
Fixpoint crc16_loop (crc : Z) (buf : list Z) (pos : Z) (n : nat) : Z :=
  match n with
  | O => crc
  | S n' => crc16_loop (crc16_byte crc (char_at buf pos)) buf (pos + 1) n'
  end.

(** [unsigned int crc16(unsigned int crc, unsigned char *buf, int len)].
    No operation of the loop can leave the 32 bits of [unsigned int]
    ([crc16_range32] below), so no wrap-around appears. *)
Definition crc16 (crc : Z) (buf : list Z) (len : Z) : Z :=
  crc16_loop crc buf 0 (Z.to_nat len).

(** The checksum as the specification words it: for each byte, XOR it into
    the low byte of the accumulator, then eight rounds of shifting right and
    XORing with [0xA001] whenever the low bit was set before the shift. *)
Definition spec_xor_low_byte (acc b : Z) : Z :=
  (acc - acc mod 256) + Z.lxor (acc mod 256) b.

Definition spec_round (acc : Z) : Z :=
  let low_bit_was_set := Z.odd acc in
  let shifted := acc / 2 in
  if low_bit_was_set then Z.lxor shifted 0xA001 else shifted.

Definition spec_crc16_byte (acc b : Z) : Z :=
  Nat.iter 8 spec_round (spec_xor_low_byte acc b).

Definition spec_crc16 (seed : Z) (bytes : list Z) : Z :=
  fold_left spec_crc16_byte bytes seed.

(* ===================================================================== *)
(** * Delimiter search and numeric check                                  *)
(* ===================================================================== *)

(** [for (int i = len - 1; i >= 0; i--) if (array[i] == c) return i;]
    with [n = i + 1]; [return -1] after the loop. *)
Fixpoint findCharInArrayRev_loop (array : list Z) (c : Z) (n : nat) : Z :=
  match n with
  | O => -1
  | S i => if char_at array (Z.of_nat i) =? c then Z.of_nat i
           else findCharInArrayRev_loop array c i
  end.

Definition findCharInArrayRev (array : list Z) (c : Z) (len : Z) : Z :=
  findCharInArrayRev_loop array c (Z.to_nat len).

(** The test of [isNumber] on one character:
    [((c < '0') || (c > '9')) && (c != '.' && c != 0)]. *)
Definition not_numeric (c : Z) : bool :=
  ((c <? char_of_ascii "0") || (char_of_ascii "9" <? c))
  && (negb (c =? char_of_ascii ".") && negb (c =? 0)).

(** [for (int i = 0; i < len; i++) if (...) return false;] and
    [return true] after the loop; [n] iterations are left. *)
Fixpoint isNumber_loop (res : list Z) (i : Z) (n : nat) : bool :=
  match n with
  | O => true
  | S n' => if not_numeric (char_at res i) then false
            else isNumber_loop res (i + 1) n'
  end.

Definition isNumber (res : list Z) (len : Z) : bool :=
  isNumber_loop res 0 (Z.to_nat len).

(* ===================================================================== *)
(** * The C library functions the decoder calls                           *)
(* ===================================================================== *)

(** [strlen]: the number of bytes before the first NUL. *)
Fixpoint strlen (s : list Z) : nat :=
  match s with
  | [] => O
  | c :: s' => if c =? 0 then O else S (strlen s')
  end.

(** [strncmp(a, b, n) == 0]: the first [n] characters agree, the comparison
    ending early at a NUL common to both. *)
Fixpoint strncmp_eq (a b : list Z) (n : nat) : bool :=
  match n with
  | O => true
  | S n' =>
      let x := char_at a 0 in
      let y := char_at b 0 in
      if x =? y
      then (if x =? 0 then true else strncmp_eq (advance a 1) (advance b 1) n')
      else false
  end.

(** The [n] bytes that [strncpy(dest, src, n)] writes: the characters of
    [src] up to its NUL, then NULs. *)
Fixpoint strncpy_bytes (src : list Z) (n : nat) : list Z :=
  match n with
  | O => []
  | S n' =>
      let c := char_at src 0 in
      if c =? 0 then replicate (S n') 0
      else c :: strncpy_bytes (advance src 1) n'
  end.

(** [strncpy(dest, src, l)] into a zeroed [char dest[size]], the [int]
    length [l] converted to [size_t]; writing more than [size] bytes is
    undefined. The result is the whole array. *)
Definition strncpy_into (size : Z) (src : list Z) (l : Z) : result (list Z) :=
  let n := l mod 2 ^ 32 in
  if size <? n then Undefined
  else Ret (strncpy_bytes src (Z.to_nat n) ++ replicate (Z.to_nat (size - n)) 0).

Definition isspace (c : Z) : bool := (c =? 32) || ((9 <=? c) && (c <=? 13)).

Definition hex_digit (c : Z) : option Z :=
  if (char_of_ascii "0" <=? c) && (c <=? char_of_ascii "9") then Some (c - char_of_ascii "0")
  else if (char_of_ascii "A" <=? c) && (c <=? char_of_ascii "F") then Some (c - char_of_ascii "A" + 10)
  else if (char_of_ascii "a" <=? c) && (c <=? char_of_ascii "f") then Some (c - char_of_ascii "a" + 10)
  else None.

Fixpoint skip_spaces (s : list Z) : list Z :=
  match s with
  | c :: s' => if isspace c then skip_spaces s' else s
  | [] => []
  end.

Fixpoint hex_value (s : list Z) (acc : Z) : Z :=
  match s with
  | c :: s' =>
      match hex_digit c with
      | Some d => hex_value s' (16 * acc + d)
      | None => acc
      end
  | [] => acc
  end.

(** [strtol(s, NULL, 16)] on a string of at most four characters (so the
    value always fits a [long]): white space, an optional sign, an optional
    [0x] prefix, then the hexadecimal digits. *)
Definition strtol16 (s : list Z) : Z :=
  let s1 := skip_spaces s in
  let negative := char_at s1 0 =? char_of_ascii "-" in
  let s2 := if negative || (char_at s1 0 =? char_of_ascii "+") then advance s1 1 else s1 in
  let prefixed :=
    (char_at s2 0 =? char_of_ascii "0")
    && ((char_at s2 1 =? char_of_ascii "x") || (char_at s2 1 =? char_of_ascii "X"))
    && (match hex_digit (char_at s2 2) with Some _ => true | None => false end) in
  let s3 := if prefixed then advance s2 2 else s2 in
  let v := hex_value s3 0 in
  if negative then - v else v.

(* ===================================================================== *)
(** * IEEE 754 binary64 ([double]) and [atof]                             *)
(* ===================================================================== *)

(** [double] values are those of the standard library's executable
    specification of IEEE 754, at the binary64 format. *)
Definition prec : Z := 53.
Definition emax : Z := 1024.

Definition double : Type := spec_float.

(** Conversion of an [int] to [double] (exact below [2^53]). *)
Definition double_of_int (n : Z) : double := binary_normalize prec emax n 0 false.

(** The product of two [double]s, rounded to nearest even. *)
Definition double_mul (x y : double) : double := SFmul prec emax x y.

(** The [double] nearest to the decimal [n / 10^k] (ties to even): what a
    correctly rounding [strtod] returns for the digits of [n] with [k] of
    them after the decimal point. *)
Definition double_of_decimal (n : Z) (k : nat) : double :=
  match n with
  | Zpos p =>
      SFdiv prec emax (S754_finite false p 0)
            (S754_finite false (Z.to_pos (10 ^ Z.of_nat k)) 0)
  | _ => S754_zero false
  end.

Definition LONG_MIN : Z := - 2 ^ 31.
Definition LONG_MAX : Z := 2 ^ 31 - 1.

(** The integral part of a finite [double], towards zero. *)
Definition double_trunc (x : double) : option Z :=
  match x with
  | S754_zero _ => Some 0
  | S754_finite s m e =>
      let a := if 0 <=? e then Zpos m * 2 ^ e else Zpos m / 2 ^ (- e) in
      Some (if s then - a else a)
  | _ => None
  end.

(** Conversion of a [double] to [long]: the fractional part is discarded;
    undefined when the integral part does not fit. *)
Definition double_to_long (x : double) : result Z :=
  match double_trunc x with
  | Some v => if (LONG_MIN <=? v) && (v <=? LONG_MAX) then Ret v else Undefined
  | None => Undefined
  end.

Definition is_digit (c : Z) : bool :=
  (char_of_ascii "0" <=? c) && (c <=? char_of_ascii "9").

(** The digits after the decimal point: [n] is the number read so far with
    [k] digits after the point. Reading past the end of the array is
    undefined. *)
Fixpoint atof_fraction (s : list Z) (n : Z) (k : nat) : result (Z * nat) :=
  match s with
  | [] => Undefined
  | c :: s' =>
      if is_digit c then atof_fraction s' (10 * n + (c - char_of_ascii "0")) (S k)
      else Ret (n, k)
  end.

(** The digits before the decimal point. *)
Fixpoint atof_integer (s : list Z) (n : Z) : result (Z * nat) :=
  match s with
  | [] => Undefined
  | c :: s' =>
      if is_digit c then atof_integer s' (10 * n + (c - char_of_ascii "0"))
      else if c =? char_of_ascii "." then atof_fraction s' n O
      else Ret (n, O)
  end.

(** [atof(res)] for an array [res] that holds only digits, decimal points
    and NULs, the only arrays [getValue] passes to it (it calls [atof] once
    [isNumber] has accepted the bytes copied into the zeroed array, see
    [atof_argument_chars] below): the longest prefix [digits [. digits]] is
    converted, anything else ends the number, and a text without digits
    gives [0.0]. White space, signs, exponents and the other forms [strtod]
    accepts cannot occur. *)
Definition atof (res : list Z) : result double :=
  '(n, k) ← atof_integer res 0;
  Ret (double_of_decimal n k).

(* ===================================================================== *)
(** * Value extraction: [getValue]                                        *)
(* ===================================================================== *)

(** [long getValue(char *buffer, int maxlen, char startchar, char endchar)].
    [res] is [char res[16]], zeroed by [memset]; [strncpy] returns [res],
    which is never null, so the test on it always succeeds. The sums on
    [int] stay far from the 32-bit limits for every line length the sketch
    can produce, so they are written without wrap-around. *)
Definition getValue (buffer : list Z) (maxlen : Z) (startchar endchar : Z) : result Z :=
  let s := findCharInArrayRev buffer startchar (maxlen - 2) in
  let l := findCharInArrayRev buffer endchar (maxlen - 2) - s - 1 in
  res ← strncpy_into 16 (advance buffer (s + 1)) l;
  if endchar =? char_of_ascii "*" then
    if isNumber res l
    then d ← atof res; double_to_long (double_mul (double_of_int 1000) d)
    else Ret 0
  else if endchar =? char_of_ascii ")" then
    if isNumber res l
    then d ← atof res; double_to_long d
    else Ret 0
  else Ret 0.

(* ===================================================================== *)
(** * The registry: [telegramObjects] and [setupDataReadout]              *)
(* ===================================================================== *)

(** [struct TelegramDecodedObject], with the members the source reads and
    writes (the declaration is in [settings.h]). [code] holds the C string
    stored in the character array of that name. *)
Record TelegramDecodedObject : Type := {
  name : string;
  value : Z;
  code : list Z;
  startChar : Z;
  endChar : Z;
  sendData : bool
}.

Definition set_name (v : string) (o : TelegramDecodedObject) : TelegramDecodedObject :=
  {| name := v; value := value o; code := code o;
     startChar := startChar o; endChar := endChar o; sendData := sendData o |}.

Definition set_value (v : Z) (o : TelegramDecodedObject) : TelegramDecodedObject :=
  {| name := name o; value := v; code := code o;
     startChar := startChar o; endChar := endChar o; sendData := sendData o |}.

Definition set_code (v : list Z) (o : TelegramDecodedObject) : TelegramDecodedObject :=
  {| name := name o; value := value o; code := v;
     startChar := startChar o; endChar := endChar o; sendData := sendData o |}.

Definition set_endChar (v : Z) (o : TelegramDecodedObject) : TelegramDecodedObject :=
  {| name := name o; value := value o; code := code o;
     startChar := startChar o; endChar := v; sendData := sendData o |}.

Definition set_sendData (v : bool) (o : TelegramDecodedObject) : TelegramDecodedObject :=
  {| name := name o; value := value o; code := code o;
     startChar := startChar o; endChar := endChar o; sendData := v |}.

(** The global array [telegramObjects[NUMBER_OF_READOUTS]]. *)
Abbreviation table := (list TelegramDecodedObject).

(** An assignment to a member of [telegramObjects[i]]; undefined outside
    the array. *)
Definition assign (i : nat) (f : TelegramDecodedObject -> TelegramDecodedObject)
    (t : table) : result table :=
  if (i <? length t)%nat then Ret (alter f i t) else Undefined.

(** Modelled from the spec: [settings.h], which declares the structure and
    its member initialisers, is not among the sources. The comment above
    [setupDataReadout] gives the default delimiters ("Default startChar and
    endChar is '(' and ')'"), the specification gives the initial reading
    (value 0, not dirty), and a global array is zero-initialised, which
    leaves [code] empty. *)
Definition default_object : TelegramDecodedObject :=
  {| name := ""; value := 0; code := [];
     startChar := char_of_ascii "("; endChar := char_of_ascii ")";
     sendData := false |}.

(** The array before [setup] runs, for a given [NUMBER_OF_READOUTS] and a
    given initial element. *)
Definition initial_table (NUMBER_OF_READOUTS : nat) (d : TelegramDecodedObject) : table :=
  replicate NUMBER_OF_READOUTS d.

(** [void setupDataReadout()]: the assignments of the source, one per line
    and in the order of the source. [strcpy] into [code] stores the literal
    (at most eleven characters). *)
Definition setupDataReadout (telegramObjects : table) : result table :=
  t ← assign 0 (set_name "consumption_tarif_1") telegramObjects;
  t ← assign 0 (set_code (str "1-0:1.8.1")) t;
  t ← assign 0 (set_endChar (char_of_ascii "*")) t;
  t ← assign 1 (set_name "consumption_tarif_2") t;
  t ← assign 1 (set_code (str "1-0:1.8.2")) t;
  t ← assign 1 (set_endChar (char_of_ascii "*")) t;
  t ← assign 0 (set_name "received_tarif_1") t;
  t ← assign 0 (set_code (str "1-0:2.8.1")) t;
  t ← assign 0 (set_endChar (char_of_ascii "*")) t;
  t ← assign 1 (set_name "received_tarif_2") t;
  t ← assign 1 (set_code (str "1-0:2.8.2")) t;
  t ← assign 1 (set_endChar (char_of_ascii "*")) t;
  t ← assign 2 (set_name "actual_consumption") t;
  t ← assign 2 (set_code (str "1-0:1.7.0")) t;
  t ← assign 2 (set_endChar (char_of_ascii "*")) t;
  t ← assign 3 (set_name "actual_received") t;
  t ← assign 3 (set_code (str "1-0:2.7.0")) t;
  t ← assign 3 (set_endChar (char_of_ascii "*")) t;
  t ← assign 4 (set_name "instant_power_usage_l1") t;
  t ← assign 4 (set_code (str "1-0:21.7.0")) t;
  t ← assign 4 (set_endChar (char_of_ascii "*")) t;
  t ← assign 5 (set_name "instant_power_usage_l2") t;
  t ← assign 5 (set_code (str "1-0:41.7.0")) t;
  t ← assign 5 (set_endChar (char_of_ascii "*")) t;
  t ← assign 6 (set_name "instant_power_usage_l3") t;
  t ← assign 6 (set_code (str "1-0:61.7.0")) t;
  t ← assign 6 (set_endChar (char_of_ascii "*")) t;
  t ← assign 4 (set_name "instant_power_return_l1") t;
  t ← assign 4 (set_code (str "1-0:22.7.0")) t;
  t ← assign 4 (set_endChar (char_of_ascii "*")) t;
  t ← assign 5 (set_name "instant_power_return_l2") t;
  t ← assign 5 (set_code (str "1-0:42.7.0")) t;
  t ← assign 5 (set_endChar (char_of_ascii "*")) t;
  t ← assign 6 (set_name "instant_power_return_l3") t;
  t ← assign 6 (set_code (str "1-0:62.7.0")) t;
  t ← assign 6 (set_endChar (char_of_ascii "*")) t;
  t ← assign 7 (set_name "instant_power_current_l1") t;
  t ← assign 7 (set_code (str "1-0:31.7.0")) t;
  t ← assign 7 (set_endChar (char_of_ascii "*")) t;
  t ← assign 8 (set_name "instant_power_current_l2") t;
  t ← assign 8 (set_code (str "1-0:51.7.0")) t;
  t ← assign 8 (set_endChar (char_of_ascii "*")) t;
  t ← assign 9 (set_name "instant_power_current_l3") t;
  t ← assign 9 (set_code (str "1-0:71.7.0")) t;
  t ← assign 9 (set_endChar (char_of_ascii "*")) t;
  t ← assign 10 (set_name "instant_voltage_l1") t;
  t ← assign 10 (set_code (str "1-0:32.7.0")) t;
  t ← assign 10 (set_endChar (char_of_ascii "*")) t;
  t ← assign 11 (set_name "instant_voltage_l2") t;
  t ← assign 11 (set_code (str "1-0:52.7.0")) t;
  t ← assign 11 (set_endChar (char_of_ascii "*")) t;
  t ← assign 12 (set_name "instant_voltage_l3") t;
  t ← assign 12 (set_code (str "1-0:72.7.0")) t;
  t ← assign 12 (set_endChar (char_of_ascii "*")) t;
  t ← assign 13 (set_name "actual_tarif_group") t;
  t ← assign 13 (set_code (str "0-0:96.14.0")) t;
  t ← assign 18 (set_name "gas_meter_m3") t;
  t ← assign 18 (set_code (str "0-1:24.2.3")) t;
  t ← assign 12 (set_endChar (char_of_ascii "*")) t;
  Ret t.

(* ===================================================================== *)
(** * The per-line decoder: [decodeTelegram]                              *)
(* ===================================================================== *)

(** The first half of [decodeTelegram], up to the loop over the registry:
    the value of the variable [currentCRC] when the branches are left, and
    [validCRCFound]. [currentCRC] is declared inside the function
    ([unsigned int currentCRC = 0;]), so every call starts from 0 and the
    value computed here is dropped when the call returns.
    [messageCRC] is [char messageCRC[5]], filled by [strncpy] with four
    bytes and closed by [messageCRC[4] = 0]. The comparison of the [long]
    returned by [strtol] with the [unsigned int] is made on 32-bit unsigned
    values. *)
Definition decodeTelegram_checksum (telegram : list Z) (len : Z) : Z * bool :=
  let start_pos := findCharInArrayRev telegram (char_of_ascii "/") len in
  let end_pos := findCharInArrayRev telegram (char_of_ascii "!") len in
  let validCRCFound := false in
  let currentCRC := 0 in
  if 0 <=? start_pos then
    let currentCRC := crc16 0 (advance telegram start_pos) (len - start_pos) in
    (currentCRC, validCRCFound)
  else if 0 <=? end_pos then
    let currentCRC := crc16 currentCRC (advance telegram end_pos) 1 in
    let messageCRC := strncpy_bytes (advance telegram (end_pos + 1)) 4 in
    let validCRCFound := (strtol16 messageCRC) mod 2 ^ 32 =? currentCRC in
    let currentCRC := 0 in
    (currentCRC, validCRCFound)
  else
    let currentCRC := crc16 currentCRC telegram len in
    (currentCRC, validCRCFound).

(** The test of the loop: [strncmp(telegram, code, strlen(code)) == 0]. *)
Definition code_matches (telegram : list Z) (o : TelegramDecodedObject) : bool :=
  strncmp_eq telegram (code o) (strlen (code o)).

(** What the body of the loop does to the matched element. *)
Definition store_value (newValue : Z) (o : TelegramDecodedObject) : TelegramDecodedObject :=
  if negb (newValue =? value o)
  then set_sendData true (set_value newValue o)
  else o.

(** [for (int i = 0; i < NUMBER_OF_READOUTS; i++)] over the elements that
    are left, with its [break] after the first match. *)
Fixpoint decodeTelegram_loop (telegram : list Z) (len : Z) (objects : table) : result table :=
  match objects with
  | [] => Ret []
  | o :: rest =>
      if code_matches telegram o then
        newValue ← getValue telegram len (startChar o) (endChar o);
        Ret (store_value newValue o :: rest)
      else
        rest' ← decodeTelegram_loop telegram len rest;
        Ret (o :: rest')
  end.

(** [bool decodeTelegram(char* telegram, int len)], with the global
    [telegramObjects] passed in and out. *)
Definition decodeTelegram (telegramObjects : table) (telegram : list Z) (len : Z)
    : result (bool * table) :=
  let '(_, validCRCFound) := decodeTelegram_checksum telegram len in
  t ← decodeTelegram_loop telegram len telegramObjects;
  Ret (validCRCFound, t).

(** The value of the local [currentCRC] at the end of a call. *)
Definition currentCRC_after (telegram : list Z) (len : Z) : Z :=
  fst (decodeTelegram_checksum telegram len).

(* ===================================================================== *)
(** * The session driver: [readP1Serial]                                  *)
(* ===================================================================== *)

(** [bool readP1Serial()]. The serial port is the list of the byte runs
    that the successive [Serial2.readBytesUntil('\n', ...)] return (the
    lines without their newline); it is available while the list is not
    empty. Each run is closed by ['\n'] and a NUL and handed to the decoder
    with [len + 1]. Returns the result, the registry and the runs left
    unread. The bound [P1_MAXLINELENGTH] on the length of a run and the
    size of the buffer are declared in [settings.h]; the runs are taken
    to fit. *)
Fixpoint readP1Serial (telegramObjects : table) (serial : list (list Z))
    : result (bool * table * list (list Z)) :=
  match serial with
  | [] => Ret (false, telegramObjects, [])
  | line :: rest =>
      let len := Z.of_nat (length line) in
      let telegram := line ++ [LF] in
      '(result, t) ← decodeTelegram telegramObjects telegram (len + 1);
      if (result : bool) then Ret (true, t, rest)
      else readP1Serial t rest
  end.

(* ===================================================================== *)
(** * The publisher: [sendDataToBroker] *)
(* ===================================================================== *)

(** [void sendDataToBroker()]: every element whose [sendData] is set is
    published (name and value) and its flag cleared. Returns the registry
    and the metrics sent, in order. *)
Fixpoint sendDataToBroker (telegramObjects : table) : table * list (string * Z) :=
  match telegramObjects with
  | [] => ([], [])
  | o :: rest =>
      let '(rest', sent) := sendDataToBroker rest in
      if sendData o
      then (set_sendData false o :: rest', (name o, value o) :: sent)
      else (o :: rest', sent)
  end.

(* ===================================================================== *)
(** * Notions used in the statements *)
(* ===================================================================== *)

(** [rightmost array c len r]: [r] is the position of the last occurrence
    of [c] among the first [len] bytes of [array], or -1 when there is
    none. *)
Inductive rightmost (array : list Z) (c : Z) (len : Z) : Z -> Prop :=
| rightmost_none :
    (forall i, 0 <= i < len -> char_at array i <> c) ->
    rightmost array c len (-1)
| rightmost_at (r : Z) :
    0 <= r < len -> char_at array r = c ->
    (forall i, r < i < len -> char_at array i <> c) ->
    rightmost array c len r.

(** The first element of the registry, in order, whose code is a prefix of
    the line, with its index. *)
Fixpoint first_match (telegram : list Z) (objects : table) : option (nat * TelegramDecodedObject) :=
  match objects with
  | [] => None
  | o :: rest =>
      if code_matches telegram o then Some (O, o)
      else match first_match telegram rest with
           | Some (i, o') => Some (S i, o')
           | None => None
           end
  end.



(** The number written by a text of digits with at most one decimal point,
    as the pair of its digits read as an integer and the count of digits
    after the point: the text denotes [n / 10^k]. *)
Fixpoint decimal_digits (v : list Z) (n : Z) : Z :=
  match v with
  | [] => n
  | c :: v' => decimal_digits v' (if is_digit c then 10 * n + (c - char_of_ascii "0") else n)
  end.

Fixpoint digits_after_point (v : list Z) : nat :=
  match v with
  | [] => O
  | c :: v' => if c =? char_of_ascii "." then length v' else digits_after_point v'
  end.


(** The values the specification states for a text [v] that writes the
    decimal [n / 10^k]: [floor(1000 * v)] and [floor(v)]. *)
Definition spec_floor_scaled (v : list Z) : Z :=
  (1000 * decimal_digits v 0) / 10 ^ Z.of_nat (digits_after_point v).

Definition spec_floor (v : list Z) : Z :=
  decimal_digits v 0 / 10 ^ Z.of_nat (digits_after_point v).

(** An element after its [name] and its [code] have been assigned, and
    after its [endChar] has been set to ['*']. *)
Definition entry (d : TelegramDecodedObject) (n c : string) : TelegramDecodedObject :=
  set_code (str c) (set_name n d).

Definition star (o : TelegramDecodedObject) : TelegramDecodedObject :=
  set_endChar (char_of_ascii "*") o.

(* ===================================================================== *)
(** * Sample data *)
(* ===================================================================== *)

(** A line of a telegram as the decoder receives it: the text, the
    carriage return and the newline. *)
Definition line (s : string) : list Z := str s ++ [CR; LF].

Definition line_length (s : string) : Z := Z.of_nat (length (line s)).

(** The registry that [setupDataReadout] builds from 19 default elements,
    the least [NUMBER_OF_READOUTS] for which all its assignments are inside
    the array. *)
Definition registry19 : table :=
  match setupDataReadout (initial_table 19 default_object) with
  | Ret t => t
  | Undefined => []
  end.

(** A telegram of four lines as the serial port delivers it, one run of
    bytes per line; [ECB7] is the CRC16 of its bytes from ['/'] through
    ['!']. *)
Definition sample_session : list (list Z) :=
  [ str "/ISK5\2M550T-1012" ++ [CR];
    [CR];
    str "1-0:1.7.0(00.378*kW)" ++ [CR];
    str "!ECB7" ++ [CR] ].

(* ===================================================================== *)
(** * The full update of [loop]                                           *)
(* ===================================================================== *)


(* ===================================================================== *)
(** * Publishing a metric: [sendMetric]                                   *)
(* ===================================================================== *)

(** The digit table of [ltoa]. *)
Definition digit_char (d : Z) : Z := char_at (str "0123456789abcdef") d.

(** The loop of the Arduino core's [ltoa],
    [do { tmp = quotient / base; *out++ = digits[quotient - tmp * base];
          quotient = tmp; } while (quotient);]
    which writes the digits from the least significant one; [fuel] bounds
    the number of iterations. *)
Fixpoint ltoa_loop (fuel : nat) (quotient base : Z) : list Z :=
  match fuel with
  | O => []
  | S fuel' =>
      let tmp := quotient / base in
      let c := digit_char (quotient - tmp * base) in
      if tmp =? 0 then [c] else c :: ltoa_loop fuel' tmp base
  end.

(** [ltoa(value, result, base)]: the characters stored in [result] before
    the closing NUL. A base outside 2..16 stores nothing; [abs] of the
    least [long] is undefined; the digits are reversed after the sign has
    been appended. A [long] has at most 31 digits in any base. *)
Definition ltoa (value base : Z) : result (list Z) :=
  if (base <? 2) || (16 <? base) then Ret []
  else if value =? LONG_MIN then Undefined
  else
    let out := ltoa_loop 31 (Z.abs value) base in
    Ret (rev (if value <? 0 then out ++ [char_of_ascii "-"] else out)).

(** [void sendMetric(const String &name, long metric)]: [output] is
    [char output[10]] and [sizeof(output)], that is 10, is what the call
    passes to [ltoa] as the base; writing more than ten bytes (the text and
    its NUL) is undefined. Returns the topic and the payload handed to
    [sendMQTTMessage], which publishes them. [MQTT_ROOT_TOPIC] is declared
    in [settings.h]. *)
Definition sendMetric (MQTT_ROOT_TOPIC name : string) (metric : Z)
    : result (string * list Z) :=
  output ← ltoa metric 10;
  if 10 <? Z.of_nat (length output) + 1 then Undefined
  else Ret (append MQTT_ROOT_TOPIC (append "/" name), output).

(** The calls of [sendMetric] that [sendDataToBroker] makes, given the
    names and values it sends. *)
Fixpoint publish (MQTT_ROOT_TOPIC : string) (sent : list (string * Z))
    : result (list (string * list Z)) :=
  match sent with
  | [] => Ret []
  | (n, v) :: rest =>
      m ← sendMetric MQTT_ROOT_TOPIC n v;
      ms ← publish MQTT_ROOT_TOPIC rest;
      Ret (m :: ms)
  end.


(* ===================================================================== *)
(** * The status LED: [blinkLed]                                          *)
(* ===================================================================== *)

(** What [blinkLed] does to the outside: writes to the LED pin and waits. *)
Inductive led_event : Type :=
| DigitalWrite (high : bool)
| Delay (ms : Z).

(** [for (int i = 0; i < numberOfBlinks; i++)] with [n] iterations left. *)
Fixpoint blinkLed_loop (n : nat) (i numberOfBlinks msBetweenBlinks : Z) : list led_event :=
  match n with
  | O => []
  | S n' =>
      [DigitalWrite true; Delay msBetweenBlinks; DigitalWrite false]
      ++ (if negb (i =? numberOfBlinks - 1) then [Delay msBetweenBlinks] else [])
      ++ blinkLed_loop n' (i + 1) numberOfBlinks msBetweenBlinks
  end.

(** [void blinkLed(int numberOfBlinks, int msBetweenBlinks)]. *)
Definition blinkLed (numberOfBlinks msBetweenBlinks : Z) : list led_event :=
  blinkLed_loop (Z.to_nat numberOfBlinks) 0 numberOfBlinks msBetweenBlinks.

Definition is_delay (e : led_event) : bool :=
  match e with Delay _ => true | DigitalWrite _ => false end.

Definition is_write (high : bool) (e : led_event) : bool :=
  match e with DigitalWrite h => Bool.eqb h high | Delay _ => false end.

(** The time spent waiting in a run of events. *)
Fixpoint total_delay (events : list led_event) : Z :=
  match events with
  | [] => 0
  | Delay ms :: rest => ms + total_delay rest
  | DigitalWrite _ :: rest => total_delay rest
  end.

(* ===================================================================== *)
(** * Reconnecting to the broker: [mqttReconnect]                         *)
(* ===================================================================== *)

(** What [mqttReconnect] does to the outside: a call of
    [mqttClient.connect] with its outcome, the publication of the "alive"
    message on [hass/status], a wait of five seconds. *)
Inductive mqtt_event : Type :=
| Connect (ok : bool)
| PublishAlive
| Delay5000.

(** The [while] loop of [mqttReconnect]. The client is the outcome
    [connect k] of its [k]-th call of [connect], and [mqttClient.connected()]
    is taken to answer the outcome of the latest call ([connected] before
    the first one). [calls] counts the calls made, [fuel] bounds the
    iterations. Returns [connected], [MQTT_RECONNECT_RETRIES] and the
    events. *)
Fixpoint mqttReconnect_loop (fuel : nat) (connect : nat -> bool)
    (MQTT_MAX_RECONNECT_TRIES : Z) (connected : bool) (retries : Z) (calls : nat)
    : bool * Z * list mqtt_event :=
  match fuel with
  | O => (connected, retries, [])
  | S fuel' =>
      if negb connected && (retries <? MQTT_MAX_RECONNECT_TRIES) then
        let retries := retries + 1 in
        let ok := connect calls in
        let '(c, r, events) :=
          mqttReconnect_loop fuel' connect MQTT_MAX_RECONNECT_TRIES ok retries (S calls) in
        (c, r, Connect ok :: (if ok then PublishAlive else Delay5000) :: events)
      else (connected, retries, [])
  end.

(** [bool mqttReconnect()]: the result, whether the client is connected
    when it returns, and the events. The loop runs at most
    [MQTT_MAX_RECONNECT_TRIES] times, one more iteration of fuel lets it
    see its exit test. *)
Definition mqttReconnect (connect : nat -> bool) (MQTT_MAX_RECONNECT_TRIES : Z)
    (connected : bool) : bool * bool * list mqtt_event :=
  let '(c, retries, events) :=
    mqttReconnect_loop (S (Z.to_nat MQTT_MAX_RECONNECT_TRIES)) connect
      MQTT_MAX_RECONNECT_TRIES connected 0 O in
  (negb (MQTT_MAX_RECONNECT_TRIES <=? retries), c, events).

(** The index of the first successful call among the first [n]. *)
Fixpoint first_success (connect : nat -> bool) (from n : nat) : option nat :=
  match n with
  | O => None
  | S n' => if connect from then Some from else first_success connect (S from) n'
  end.

(* ===================================================================== *)
(** * Further notions used in the statements                              *)
(* ===================================================================== *)

(** The inverse of one round of [crc16] on 16-bit values. *)
Definition crc16_unround (r : Z) : Z :=
  if 2 ^ 15 <=? r then 2 * Z.lxor r 0xA001 + 1 else 2 * r.

(** Two elements with the same configuration: what the decoder reads of an
    element and never writes. *)
Definition same_configuration (o o' : TelegramDecodedObject) : Prop :=
  name o' = name o /\ code o' = code o
  /\ startChar o' = startChar o /\ endChar o' = endChar o.

(** The code of an element as a C string: its bytes before the first NUL. *)
Definition code_text (o : TelegramDecodedObject) : list Z :=
  take (strlen (code o)) (code o).


(** No reading is negative or beyond a [long]. *)
Definition value_in_range (o : TelegramDecodedObject) : Prop :=
  0 <= value o <= LONG_MAX.

(** A [double] that is not below zero (infinities and NaN do not convert
    to [long] at all). *)
Definition not_negative (d : double) : Prop :=
  match d with
  | S754_finite s _ _ => s = false
  | _ => True
  end.

(* ===================================================================== *)
(** * Buffers: basic facts                                                *)
(* ===================================================================== *)

Lemma char_at_lookup (p : list Z) (i : nat) (c : Z) :
  p !! i = Some c -> char_at p (Z.of_nat i) = c.
Proof.
  intros H. unfold char_at.
  destruct (Z.ltb_spec (Z.of_nat i) 0) as [Hneg|_]; [lia|].
  rewrite Nat2Z.id. now apply nth_lookup_Some.
Qed.

Lemma char_at_past_end (p : list Z) (i : Z) :
  Z.of_nat (length p) <= i -> char_at p i = 0.
Proof.
  intros H. unfold char_at.
  destruct (Z.ltb_spec i 0); [reflexivity|].
  apply nth_overflow. lia.
Qed.

Lemma char_at_cons_succ (c : Z) (p : list Z) (i : Z) :
  0 <= i -> char_at (c :: p) (i + 1) = char_at p i.
Proof.
  intros H. unfold char_at.
  destruct (Z.ltb_spec (i + 1) 0); [lia|].
  destruct (Z.ltb_spec i 0); [lia|].
  replace (Z.to_nat (i + 1)) with (S (Z.to_nat i)) by lia. reflexivity.
Qed.

Lemma char_at_app_l (p q : list Z) (i : Z) :
  i < Z.of_nat (length p) -> char_at (p ++ q) i = char_at p i.
Proof.
  intros H. unfold char_at.
  destruct (Z.ltb_spec i 0); [reflexivity|].
  apply app_nth1. lia.
Qed.

Lemma char_at_advance (p : list Z) (i j : Z) :
  0 <= i -> 0 <= j -> char_at (advance p i) j = char_at p (i + j).
Proof.
  intros Hi Hj. unfold char_at, advance.
  destruct (Z.ltb_spec j 0); [lia|].
  destruct (Z.ltb_spec (i + j) 0); [lia|].
  replace (Z.to_nat (i + j)) with (Z.to_nat i + Z.to_nat j)%nat by lia.
  rewrite !nth_lookup. now rewrite lookup_drop.
Qed.

Lemma advance_advance (p : list Z) (i j : Z) :
  0 <= i -> 0 <= j -> advance (advance p i) j = advance p (i + j).
Proof.
  intros Hi Hj. unfold advance. rewrite drop_drop. f_equal. lia.
Qed.

Lemma advance_0 (p : list Z) : advance p 0 = p.
Proof. reflexivity. Qed.

Lemma advance_cons_1 (c : Z) (p : list Z) : advance (c :: p) 1 = p.
Proof. reflexivity. Qed.

(* ===================================================================== *)
(** * The checksum engine                                                 *)
(* ===================================================================== *)

Lemma crc16_round_spec (crc : Z) : crc16_round crc = spec_round crc.
Proof.
  unfold crc16_round, spec_round.
  rewrite Z.shiftr_div_pow2 by lia. change (2 ^ 1) with 2.
  change 1 with (Z.ones 1) at 1. rewrite Z.land_ones by lia.
  change (2 ^ 1) with 2. rewrite Zmod_odd.
  destruct (Z.odd crc); reflexivity.
Qed.

Lemma crc16_rounds_spec (i : nat) (crc : Z) :
  crc16_rounds i crc = Nat.iter i spec_round crc.
Proof.
  revert crc. induction i as [|i IH]; intros crc; [reflexivity|].
  cbn [crc16_rounds]. rewrite IH, crc16_round_spec.
  now rewrite Nat.iter_succ_r.
Qed.

Lemma lxor_bound (k a b : Z) :
  0 <= k -> 0 <= a < 2 ^ k -> 0 <= b < 2 ^ k -> 0 <= Z.lxor a b < 2 ^ k.
Proof.
  intros Hk Ha Hb.
  assert (H0 : 0 <= Z.lxor a b) by (apply Z.lxor_nonneg; lia).
  split; [exact H0|].
  destruct (Z.eq_dec (Z.lxor a b) 0) as [->|Hne]; [lia|].
  assert (Hk' : 0 < k).
  { destruct (Z.eq_dec k 0) as [->|?]; [|lia].
    exfalso. apply Hne. replace a with 0 by lia. replace b with 0 by lia.
    reflexivity. }
  apply Z.log2_lt_pow2; [lia|].
  eapply Z.le_lt_trans; [apply Z.log2_lxor; lia|].
  apply Z.max_lub_lt.
  - destruct (Z.eq_dec a 0) as [->|?]; [simpl; lia|]. apply Z.log2_lt_pow2; lia.
  - destruct (Z.eq_dec b 0) as [->|?]; [simpl; lia|]. apply Z.log2_lt_pow2; lia.
Qed.

(** XORing a byte into the accumulator only touches its low byte. *)
Lemma lxor_low_byte (acc b : Z) :
  0 <= acc -> is_byte b -> Z.lxor acc b = spec_xor_low_byte acc b.
Proof.
  intros Hacc Hb. unfold spec_xor_low_byte. unfold is_byte in Hb.
  assert (Hlo : 0 <= acc mod 256 < 256) by (apply Z.mod_pos_bound; lia).
  assert (Hx : 0 <= Z.lxor (acc mod 256) b < 2 ^ 8)
    by (apply lxor_bound; change (2 ^ 8) with 256; lia).
  assert (Hhi : acc - acc mod 256 = Z.shiftl (Z.shiftr acc 8) 8).
  { rewrite Z.shiftl_mul_pow2, Z.shiftr_div_pow2 by lia.
    change (2 ^ 8) with 256. pose proof (Z.div_mod acc 256). lia. }
  assert (Habove : forall y m, 0 <= y < 2 ^ 8 -> 8 <= m -> Z.testbit y m = false).
  { intros y m Hy Hm. destruct (Z.eq_dec y 0) as [->|?]; [apply Z.bits_0|].
    apply Z.bits_above_log2; [lia|].
    assert (Z.log2 y < 8) by (apply Z.log2_lt_pow2; lia). lia. }
  rewrite Hhi, Z.add_nocarry_lxor.
  - apply Z.bits_inj'. intros n Hn. rewrite !Z.lxor_spec.
    destruct (Z.lt_ge_cases n 8) as [Hlt|Hge].
    + rewrite Z.shiftl_spec_low by lia.
      change 256 with (2 ^ 8). now rewrite Z.mod_pow2_bits_low by lia.
    + rewrite Z.shiftl_spec, Z.shiftr_spec by lia.
      change 256 with (2 ^ 8). rewrite Z.mod_pow2_bits_high by lia.
      replace (n - 8 + 8) with n by lia.
      now rewrite (Habove b n) by lia.
  - apply Z.bits_inj'. intros m Hm. rewrite Z.land_spec, Z.bits_0.
    destruct (Z.lt_ge_cases m 8) as [Hlt|Hge].
    + now rewrite Z.shiftl_spec_low by lia.
    + rewrite (Habove _ m Hx Hge). apply andb_false_r.
Qed.

(** The accumulator stays below [2^k] for every width [k] of at least 16
    bits: the 16 bits of the checksum and the 32 bits of [unsigned int]. *)
Section AccumulatorWidth.
Variable k : Z.
Hypothesis Hk : 16 <= k.

Lemma pow2_16_le : 2 ^ 16 <= 2 ^ k.
Proof. apply Z.pow_le_mono_r; lia. Qed.

Lemma crc16_round_bound (crc : Z) :
  0 <= crc < 2 ^ k -> 0 <= crc16_round crc < 2 ^ k.
Proof.
  intros Hc. unfold crc16_round. pose proof pow2_16_le as Hp.
  assert (Hs : 0 <= Z.shiftr crc 1 < 2 ^ k).
  { rewrite Z.shiftr_div_pow2 by lia. change (2 ^ 1) with 2.
    split; [apply Z.div_pos; lia|].
    apply Z.div_lt_upper_bound; lia. }
  destruct (negb (Z.land crc 1 =? 0)); [|exact Hs].
  apply lxor_bound; [lia|exact Hs|].
  change (2 ^ 16) with 65536 in Hp. lia.
Qed.

Lemma crc16_rounds_bound (i : nat) (crc : Z) :
  0 <= crc < 2 ^ k -> 0 <= crc16_rounds i crc < 2 ^ k.
Proof.
  revert crc. induction i as [|i IH]; intros crc Hc; [exact Hc|].
  cbn [crc16_rounds]. apply IH. now apply crc16_round_bound.
Qed.

Lemma crc16_byte_bound (crc b : Z) :
  0 <= crc < 2 ^ k -> is_byte b -> 0 <= crc16_byte crc b < 2 ^ k.
Proof.
  intros Hc Hb. unfold crc16_byte. apply crc16_rounds_bound.
  apply lxor_bound; [lia|exact Hc|]. unfold is_byte in Hb.
  pose proof pow2_16_le as Hp. change (2 ^ 16) with 65536 in Hp. lia.
Qed.

Lemma fold_crc16_byte_bound (l : list Z) (crc : Z) :
  0 <= crc < 2 ^ k -> Forall is_byte l ->
  0 <= fold_left crc16_byte l crc < 2 ^ k.
Proof.
  intros Hc Hl. revert crc Hc.
  induction Hl as [|b l Hb Hl IH]; intros crc Hc; [exact Hc|].
  cbn [fold_left]. apply IH. now apply crc16_byte_bound.
Qed.

End AccumulatorWidth.

Lemma crc16_byte_spec (crc b : Z) :
  0 <= crc -> is_byte b -> crc16_byte crc b = spec_crc16_byte crc b.
Proof.
  intros Hc Hb. unfold crc16_byte, spec_crc16_byte.
  now rewrite crc16_rounds_spec, lxor_low_byte.
Qed.

(** The loop of [crc16] over a range of the buffer folds the bytes of the
    range, in order, into the accumulator. *)
Lemma crc16_loop_fold (pre l post : list Z) (crc : Z) :
  crc16_loop crc (pre ++ l ++ post) (Z.of_nat (length pre)) (length l)
  = fold_left crc16_byte l crc.
Proof.
  revert pre crc. induction l as [|c l IH]; intros pre crc; [reflexivity|].
  cbn [length crc16_loop fold_left].
  rewrite (char_at_lookup _ _ c).
  - replace (pre ++ (c :: l) ++ post) with ((pre ++ [c]) ++ l ++ post)
      by now rewrite <- app_assoc.
    replace (Z.of_nat (length pre) + 1) with (Z.of_nat (length (pre ++ [c])))
      by (rewrite length_app; simpl; lia).
    apply IH.
  - rewrite lookup_app_r by lia. now rewrite Nat.sub_diag.
Qed.

Lemma crc16_fold (crc : Z) (l : list Z) :
  crc16 crc l (Z.of_nat (length l)) = fold_left crc16_byte l crc.
Proof.
  unfold crc16. rewrite Nat2Z.id.
  pose proof (crc16_loop_fold [] l [] crc) as H.
  now rewrite app_nil_r in H.
Qed.

(** The checksum of a prefix of the buffer does not read what follows. *)
Lemma crc16_prefix (crc : Z) (l post : list Z) :
  crc16 crc (l ++ post) (Z.of_nat (length l)) = fold_left crc16_byte l crc.
Proof.
  unfold crc16. rewrite Nat2Z.id. exact (crc16_loop_fold [] l post crc).
Qed.

(** Folding two runs of bytes one after the other is folding their
    concatenation. *)
Lemma crc16_app (crc : Z) (l1 l2 : list Z) :
  crc16 crc (l1 ++ l2) (Z.of_nat (length (l1 ++ l2)))
  = crc16 (crc16 crc l1 (Z.of_nat (length l1))) l2 (Z.of_nat (length l2)).
Proof. now rewrite !crc16_fold, fold_left_app. Qed.

(** The accumulator never leaves the 32 bits of [unsigned int]. *)
Lemma crc16_range32 (crc : Z) (l : list Z) :
  0 <= crc < 2 ^ 32 -> Forall is_byte l ->
  0 <= crc16 crc l (Z.of_nat (length l)) < 2 ^ 32.
Proof.
  intros Hc Hl. rewrite crc16_fold.
  apply fold_crc16_byte_bound; [lia|exact Hc|exact Hl].
Qed.

Lemma fold_crc16_byte_spec (l : list Z) (crc : Z) :
  0 <= crc -> Forall is_byte l ->
  fold_left crc16_byte l crc = fold_left spec_crc16_byte l crc.
Proof.
  intros Hc Hl. revert crc Hc.
  induction Hl as [|b l Hb Hl IH]; intros crc Hc; [reflexivity|].
  cbn [fold_left]. rewrite <- crc16_byte_spec by assumption.
  apply IH.
  assert (Hk : 0 <= crc < 2 ^ (Z.max 16 (Z.log2 crc + 1))).
  { split; [lia|].
    destruct (Z.eq_dec crc 0) as [->|?]; [apply Z.pow_pos_nonneg; lia|].
    apply Z.lt_le_trans with (2 ^ (Z.log2 crc + 1)).
    - apply Z.log2_spec. lia.
    - apply Z.pow_le_mono_r; lia. }
  apply (crc16_byte_bound _ (Z.le_max_l 16 _) _ b) in Hk; [lia|exact Hb].
Qed.

(** The CRC-16/ARC check value. *)
Example crc16_check_value : crc16 0 (str "123456789") 9 = 0xBB3D.
Proof. reflexivity. Qed.

(** C3. [crc16] is a function of its seed and its bytes alone, and it
    computes the reflected CRC-16 of polynomial [0xA001] as the
    specification describes it: each byte is XORed into the low byte of the
    accumulator, then eight rounds shift the accumulator right and XOR it
    with [0xA001] whenever the low bit was set before the shift; a 16-bit
    seed gives a 16-bit result. *)
Theorem crc16_reflected_A001 (seed : Z) (bytes : list Z) :
  0 <= seed < 2 ^ 16 -> Forall is_byte bytes ->
  crc16 seed bytes (Z.of_nat (length bytes)) = spec_crc16 seed bytes
  /\ 0 <= crc16 seed bytes (Z.of_nat (length bytes)) < 2 ^ 16.
Proof.
  intros Hs Hb. rewrite crc16_fold. split.
  - apply fold_crc16_byte_spec; [lia|exact Hb].
  - apply fold_crc16_byte_bound; [lia|exact Hs|exact Hb].
Qed.

Lemma Forall_is_byte_str (s : string) : Forall is_byte (str s).
Proof.
  induction s as [|a s IH]; [constructor|].
  cbn [str]. constructor; [|exact IH].
  unfold is_byte, char_of_ascii. pose proof (N_ascii_bounded a). lia.
Qed.

Lemma crc16_reflected_A001_witness :
  crc16 0 (str "123456789") (Z.of_nat (length (str "123456789")))
  = spec_crc16 0 (str "123456789")
  /\ 0 <= crc16 0 (str "123456789") (Z.of_nat (length (str "123456789"))) < 2 ^ 16.
Proof.
  apply (crc16_reflected_A001 0 (str "123456789")).
  - lia.
  - apply Forall_is_byte_str.
Defined.

(* ===================================================================== *)
(** * The delimiter search                                                *)
(* ===================================================================== *)

Lemma findCharInArrayRev_loop_rightmost (array : list Z) (c : Z) (n : nat) :
  rightmost array c (Z.of_nat n) (findCharInArrayRev_loop array c n).
Proof.
  induction n as [|n IH]; cbn [findCharInArrayRev_loop].
  - apply rightmost_none. intros i Hi. lia.
  - destruct (Z.eqb_spec (char_at array (Z.of_nat n)) c) as [Heq|Hne].
    + apply rightmost_at; [lia|exact Heq|intros i Hi; lia].
    + inversion IH as [Hnone Hr|r Hr Hc Habove Hres].
      * apply rightmost_none. intros i Hi.
        destruct (Z.eq_dec i (Z.of_nat n)) as [->|?]; [exact Hne|].
        apply Hnone. lia.
      * apply rightmost_at; [lia|exact Hc|]. intros i Hi.
        destruct (Z.eq_dec i (Z.of_nat n)) as [->|?]; [exact Hne|].
        apply Habove. lia.
Qed.

(** [findCharInArrayRev] returns the position of the rightmost occurrence
    of [c] among the first [len] bytes, or -1 when there is none. *)
Lemma findCharInArrayRev_rightmost (array : list Z) (c : Z) (len : Z) :
  rightmost array c len (findCharInArrayRev array c len).
Proof.
  unfold findCharInArrayRev.
  pose proof (findCharInArrayRev_loop_rightmost array c (Z.to_nat len)) as H.
  destruct (Z.le_gt_cases 0 len) as [Hpos|Hneg].
  - now rewrite Z2Nat.id in H by lia.
  - replace (Z.to_nat len) with O in * by lia. cbn in *.
    apply rightmost_none. intros i Hi. lia.
Qed.

Lemma rightmost_unique (array : list Z) (c len r1 r2 : Z) :
  rightmost array c len r1 -> rightmost array c len r2 -> r1 = r2.
Proof.
  intros H1 H2.
  destruct H1 as [Hn1|r1 Hr1 Hc1 Ha1]; destruct H2 as [Hn2|r2 Hr2 Hc2 Ha2].
  - reflexivity.
  - exfalso. exact (Hn1 r2 Hr2 Hc2).
  - exfalso. exact (Hn2 r1 Hr1 Hc1).
  - destruct (Z.lt_trichotomy r1 r2) as [Hlt|[Heq|Hgt]]; [|exact Heq|].
    + exfalso. apply (Ha1 r2); [lia|exact Hc2].
    + exfalso. apply (Ha2 r1); [lia|exact Hc1].
Qed.

Lemma findCharInArrayRev_bounds (array : list Z) (c len : Z) :
  findCharInArrayRev array c len = -1
  \/ 0 <= findCharInArrayRev array c len < len.
Proof.
  destruct (findCharInArrayRev_rightmost array c len); [left|right]; auto.
Qed.

(** The search reads the first [len] bytes only. *)
Lemma findCharInArrayRev_ext (a b : list Z) (c len : Z) :
  (forall i, 0 <= i < len -> char_at a i = char_at b i) ->
  findCharInArrayRev a c len = findCharInArrayRev b c len.
Proof.
  intros Hext.
  apply (rightmost_unique b c len); [|apply findCharInArrayRev_rightmost].
  destruct (findCharInArrayRev_rightmost a c len) as [Hn|r Hr Hc Ha].
  - apply rightmost_none. intros i Hi. rewrite <- Hext by exact Hi. now apply Hn.
  - apply rightmost_at; [exact Hr|now rewrite <- Hext|].
    intros i Hi. rewrite <- Hext by lia. now apply Ha.
Qed.

Lemma strncpy_bytes_ext (a b : list Z) (n : nat) :
  (forall j, 0 <= j < Z.of_nat n -> char_at a j = char_at b j) ->
  strncpy_bytes a n = strncpy_bytes b n.
Proof.
  revert a b. induction n as [|n IH]; intros a b Hext; [reflexivity|].
  cbn [strncpy_bytes]. rewrite (Hext 0) by lia.
  destruct (char_at b 0 =? 0); [reflexivity|].
  f_equal. apply IH. intros j Hj.
  rewrite !char_at_advance by lia. apply Hext. lia.
Qed.

Lemma strncpy_bytes_length (src : list Z) (n : nat) :
  length (strncpy_bytes src n) = n.
Proof.
  revert src. induction n as [|n IH]; intros src; [reflexivity|].
  cbn [strncpy_bytes]. destruct (char_at src 0 =? 0).
  - now rewrite length_replicate.
  - cbn [length]. now rewrite IH.
Qed.

(** A negative [int] length becomes a huge [size_t]: the copy overruns the
    destination. *)
Lemma strncpy_into_negative (size : Z) (src : list Z) (l : Z) :
  0 <= size -> size - 2 ^ 32 < l < 0 -> strncpy_into size src l = Undefined.
Proof.
  intros Hsize Hl. unfold strncpy_into.
  replace (l mod 2 ^ 32) with (l + 2 ^ 32)
    by (apply Z.mod_unique with (-1); lia).
  destruct (Z.ltb_spec size (l + 2 ^ 32)); [reflexivity|lia].
Qed.

Lemma strncpy_into_too_long (size : Z) (src : list Z) (l : Z) :
  0 <= size -> size < l < 2 ^ 32 -> strncpy_into size src l = Undefined.
Proof.
  intros Hsize Hl. unfold strncpy_into.
  rewrite Z.mod_small by lia.
  destruct (Z.ltb_spec size l); [reflexivity|lia].
Qed.

Lemma strncpy_into_in_range (size : Z) (src : list Z) (l : Z) :
  0 <= l <= size -> size < 2 ^ 32 ->
  strncpy_into size src l
  = Ret (strncpy_bytes src (Z.to_nat l) ++ replicate (Z.to_nat (size - l)) 0).
Proof.
  intros Hl Hsize. unfold strncpy_into.
  rewrite Z.mod_small by lia.
  destruct (Z.ltb_spec size l); [lia|reflexivity].
Qed.

(** [getValue] depends on the first [maxlen - 2] bytes of the line only
    ([maxlen] is an [int]). *)
Lemma getValue_ext (a b : list Z) (maxlen startchar endchar : Z) :
  maxlen < 2 ^ 31 ->
  (forall i, 0 <= i < maxlen - 2 -> char_at a i = char_at b i) ->
  getValue a maxlen startchar endchar = getValue b maxlen startchar endchar.
Proof.
  intros Hint Hext. unfold getValue.
  rewrite (findCharInArrayRev_ext a b startchar) by exact Hext.
  rewrite (findCharInArrayRev_ext a b endchar) by exact Hext.
  set (s := findCharInArrayRev b startchar (maxlen - 2)).
  set (e := findCharInArrayRev b endchar (maxlen - 2)).
  assert (Hs : s = -1 \/ 0 <= s < maxlen - 2) by apply findCharInArrayRev_bounds.
  assert (He : e = -1 \/ 0 <= e < maxlen - 2) by apply findCharInArrayRev_bounds.
  assert (Hcopy : strncpy_into 16 (advance a (s + 1)) (e - s - 1)
                  = strncpy_into 16 (advance b (s + 1)) (e - s - 1)).
  { destruct (Z.lt_ge_cases (e - s - 1) 0) as [Hneg|Hpos].
    - now rewrite !strncpy_into_negative by lia.
    - destruct (Z.lt_ge_cases 16 (e - s - 1)) as [Hbig|Hsmall].
      + now rewrite !strncpy_into_too_long by lia.
      + rewrite !strncpy_into_in_range by lia.
        f_equal. f_equal. apply strncpy_bytes_ext. intros j Hj.
        rewrite !char_at_advance by lia. apply Hext. lia. }
  rewrite Hcopy. reflexivity.
Qed.

(** C9. In [getValue] both delimiter searches look at the first
    [maxlen - 2] bytes of the line only (indices 0 to [maxlen - 3]): the
    result of the extraction is the same for two lines that agree on these
    bytes, whatever their last two bytes hold; a search never answers one
    of the last two positions; and a delimiter that is found has at least
    two bytes of the line after it. *)
Theorem getValue_searches_first_maxlen_minus_2
    (buffer buffer' : list Z) (maxlen startchar endchar : Z) :
  maxlen < 2 ^ 31 ->
  (forall i, 0 <= i < maxlen - 2 -> char_at buffer i = char_at buffer' i) ->
  getValue buffer maxlen startchar endchar = getValue buffer' maxlen startchar endchar
  /\ (forall c,
        findCharInArrayRev buffer c (maxlen - 2) = findCharInArrayRev buffer' c (maxlen - 2)
        /\ (findCharInArrayRev buffer c (maxlen - 2) = -1
            \/ 0 <= findCharInArrayRev buffer c (maxlen - 2) <= maxlen - 3)
        /\ (0 <= findCharInArrayRev buffer c (maxlen - 2) ->
            findCharInArrayRev buffer c (maxlen - 2) + 2 <= maxlen - 1)).
Proof.
  intros Hint Hext. split; [now apply getValue_ext|].
  intros c. split; [now apply findCharInArrayRev_ext|].
  destruct (findCharInArrayRev_bounds buffer c (maxlen - 2)) as [H|H].
  - split; [now left|]. rewrite H. lia.
  - split; [right; lia|]. lia.
Qed.

(** A witness of the theorem above: the two buffers differ in their last
    two bytes only, one of which holds the end delimiter. *)
Lemma getValue_searches_first_maxlen_minus_2_witness :
  let buffer := str "0-0:96.14.0(0001)" ++ [CR; LF] in
  let buffer' := str "0-0:96.14.0(0001)" ++ [char_of_ascii ")"; char_of_ascii "("] in
  getValue buffer 19 (char_of_ascii "(") (char_of_ascii ")")
  = getValue buffer' 19 (char_of_ascii "(") (char_of_ascii ")")
  /\ (forall c,
        findCharInArrayRev buffer c (19 - 2) = findCharInArrayRev buffer' c (19 - 2)
        /\ (findCharInArrayRev buffer c (19 - 2) = -1
            \/ 0 <= findCharInArrayRev buffer c (19 - 2) <= 19 - 3)
        /\ (0 <= findCharInArrayRev buffer c (19 - 2) ->
            findCharInArrayRev buffer c (19 - 2) + 2 <= 19 - 1)).
Proof.
  apply (getValue_searches_first_maxlen_minus_2
           (str "0-0:96.14.0(0001)" ++ [CR; LF])
           (str "0-0:96.14.0(0001)" ++ [char_of_ascii ")"; char_of_ascii "("])
           19 (char_of_ascii "(") (char_of_ascii ")")).
  - lia.
  - intros i Hi. rewrite !char_at_app_l by (simpl; lia). reflexivity.
Defined.

(* ===================================================================== *)
(** * The loop over the registry                                          *)
(* ===================================================================== *)

Lemma first_match_lookup (telegram : list Z) (objects : table) (i : nat)
    (o : TelegramDecodedObject) :
  first_match telegram objects = Some (i, o) ->
  objects !! i = Some o
  /\ code_matches telegram o = true
  /\ (forall j o', (j < i)%nat -> objects !! j = Some o' -> code_matches telegram o' = false).
Proof.
  revert i. induction objects as [|x rest IH]; intros i H; [discriminate|].
  cbn [first_match] in H.
  destruct (code_matches telegram x) eqn:Hx.
  - injection H as <- <-. repeat split; [exact Hx|]. intros j o' Hj. lia.
  - destruct (first_match telegram rest) as [[k o']|] eqn:Hrest; [|discriminate].
    injection H as <- <-.
    destruct (IH k eq_refl) as (Hl & Hm & Hbefore).
    repeat split; [exact Hl|exact Hm|].
    intros [|j] o'' Hj Hlook.
    + cbn in Hlook. injection Hlook as <-. exact Hx.
    + cbn in Hlook. apply (Hbefore j); [lia|exact Hlook].
Qed.

Lemma first_match_none (telegram : list Z) (objects : table) :
  first_match telegram objects = None ->
  forall j o, objects !! j = Some o -> code_matches telegram o = false.
Proof.
  induction objects as [|x rest IH]; intros H j o Hl; [discriminate|].
  cbn [first_match] in H.
  destruct (code_matches telegram x) eqn:Hx; [discriminate|].
  destruct (first_match telegram rest) as [[k o']|] eqn:Hrest; [discriminate|].
  destruct j as [|j]; cbn in Hl.
  - injection Hl as <-. exact Hx.
  - now apply (IH eq_refl j).
Qed.

(** The loop stops at the first element whose code begins the line: that
    element alone receives the extracted value; without such an element
    the registry is left as it is. *)
Lemma decodeTelegram_loop_first_match (telegram : list Z) (len : Z) (objects : table) :
  decodeTelegram_loop telegram len objects
  = match first_match telegram objects with
    | Some (i, o) =>
        newValue ← getValue telegram len (startChar o) (endChar o);
        Ret (<[i := store_value newValue o]> objects)
    | None => Ret objects
    end.
Proof.
  induction objects as [|x rest IH]; [reflexivity|].
  cbn [decodeTelegram_loop first_match].
  destruct (code_matches telegram x); [reflexivity|].
  rewrite IH. destruct (first_match telegram rest) as [[k o']|]; [|reflexivity].
  destruct (getValue telegram len (startChar o') (endChar o')); reflexivity.
Qed.

(** The effect of a call on a matched line whose extraction returns. *)
Lemma decodeTelegram_matched
    (telegramObjects : table) (telegram : list Z) (len : Z)
    (i : nat) (o : TelegramDecodedObject) (newValue : Z) :
  first_match telegram telegramObjects = Some (i, o) ->
  getValue telegram len (startChar o) (endChar o) = Ret newValue ->
  decodeTelegram telegramObjects telegram len
  = Ret (snd (decodeTelegram_checksum telegram len),
         <[i := store_value newValue o]> telegramObjects).
Proof.
  intros Hm Hv. unfold decodeTelegram.
  destruct (decodeTelegram_checksum telegram len) as [crc valid].
  now rewrite decodeTelegram_loop_first_match, Hm, Hv.
Qed.

Lemma store_value_same (o : TelegramDecodedObject) : store_value (value o) o = o.
Proof. unfold store_value. now rewrite Z.eqb_refl. Qed.

Lemma store_value_different (newValue : Z) (o : TelegramDecodedObject) :
  newValue <> value o ->
  store_value newValue o = set_sendData true (set_value newValue o).
Proof.
  intros Hne. unfold store_value.
  destruct (Z.eqb_spec newValue (value o)); [contradiction|reflexivity].
Qed.



(* ===================================================================== *)
(** * The registry after [setupDataReadout]                               *)
(* ===================================================================== *)

(** With fewer than 19 elements the assignment to [telegramObjects[18]]
    falls outside the array. *)
Lemma setupDataReadout_too_small (n : nat) (d : TelegramDecodedObject) :
  (n < 19)%nat -> setupDataReadout (initial_table n d) = Undefined.
Proof.
  intros Hn.
  do 19 (destruct n as [|n]; [vm_compute; reflexivity|]).
  lia.
Qed.

(** The elements of the registry once [setupDataReadout] has run on an
    array of [19 + m] copies of [d]: fifteen configured elements, and the
    elements 14 to 17 and those from 19 on as they were. *)
Lemma setupDataReadout_result (m : nat) (d : TelegramDecodedObject) :
  setupDataReadout (initial_table (19 + m) d)
  = Ret ([ star (entry d "received_tarif_1" "1-0:2.8.1");
           star (entry d "received_tarif_2" "1-0:2.8.2");
           star (entry d "actual_consumption" "1-0:1.7.0");
           star (entry d "actual_received" "1-0:2.7.0");
           star (entry d "instant_power_return_l1" "1-0:22.7.0");
           star (entry d "instant_power_return_l2" "1-0:42.7.0");
           star (entry d "instant_power_return_l3" "1-0:62.7.0");
           star (entry d "instant_power_current_l1" "1-0:31.7.0");
           star (entry d "instant_power_current_l2" "1-0:51.7.0");
           star (entry d "instant_power_current_l3" "1-0:71.7.0");
           star (entry d "instant_voltage_l1" "1-0:32.7.0");
           star (entry d "instant_voltage_l2" "1-0:52.7.0");
           star (entry d "instant_voltage_l3" "1-0:72.7.0");
           entry d "actual_tarif_group" "0-0:96.14.0";
           d; d; d; d;
           entry d "gas_meter_m3" "0-1:24.2.3" ] ++ replicate m d).
Proof. vm_compute. reflexivity. Qed.

(** C10. After [setupDataReadout] the element 18 is the gas reading
    ("gas_meter_m3", code "0-1:24.2.3") and its end delimiter is still the
    one it had before the set-up: the assignment placed next to it stores
    ['*'] in [telegramObjects[12].endChar]. *)
Theorem gas_entry_keeps_default_endChar (NUMBER_OF_READOUTS : nat) (d : TelegramDecodedObject) :
  (19 <= NUMBER_OF_READOUTS)%nat ->
  exists t o18 o12,
    setupDataReadout (initial_table NUMBER_OF_READOUTS d) = Ret t
    /\ t !! 18%nat = Some o18
    /\ name o18 = "gas_meter_m3"%string
    /\ code o18 = str "0-1:24.2.3"
    /\ endChar o18 = endChar d
    /\ t !! 12%nat = Some o12
    /\ name o12 = "instant_voltage_l3"%string
    /\ endChar o12 = char_of_ascii "*".
Proof.
  intros Hn.
  replace NUMBER_OF_READOUTS with (19 + (NUMBER_OF_READOUTS - 19))%nat by lia.
  rewrite setupDataReadout_result.
  eexists _, _, _. split; [reflexivity|].
  split; [reflexivity|]. repeat split.
Qed.

Lemma gas_entry_keeps_default_endChar_witness :
  exists t o18 o12,
    setupDataReadout (initial_table 19 default_object) = Ret t
    /\ t !! 18%nat = Some o18
    /\ name o18 = "gas_meter_m3"%string
    /\ code o18 = str "0-1:24.2.3"
    /\ endChar o18 = endChar default_object
    /\ t !! 12%nat = Some o12
    /\ name o12 = "instant_voltage_l3"%string
    /\ endChar o12 = char_of_ascii "*".
Proof.
  apply (gas_entry_keeps_default_endChar 19 default_object). lia.
Defined.

(** With the default delimiters of the sketch, the gas reading is thus
    extracted up to [')'] and never scaled. *)
Example gas_entry_endChar :
  endChar <$> registry19 !! 18%nat = Some (char_of_ascii ")").
Proof. reflexivity. Qed.

(** The codes that [setupDataReadout] assigns (elements 0 to 13 and 18)
    are pairwise distinct. *)
Lemma assigned_codes_distinct (m : nat) (d : TelegramDecodedObject) (t : table) :
  setupDataReadout (initial_table (19 + m) d) = Ret t ->
  NoDup (code <$> (take 14 t ++ take 1 (drop 18 t))).
Proof.
  rewrite setupDataReadout_result. intros [= <-].
  cbn -[str]. apply (bool_decide_unpack _). vm_compute. reflexivity.
Qed.

(** An empty code begins every line. *)
Lemma empty_code_matches (telegram : list Z) (o : TelegramDecodedObject) :
  code o = [] -> code_matches telegram o = true.
Proof. intros H. unfold code_matches. now rewrite H. Qed.

(** C7, evaluated. The elements 14 and 15 of the registry are in the range
    the decoder scans and [setupDataReadout] assigns neither: after the
    set-up both still carry the code they had before it, so the codes of
    the registry are not pairwise distinct. *)
Theorem unassigned_entries_share_code (NUMBER_OF_READOUTS : nat) (d : TelegramDecodedObject) :
  (19 <= NUMBER_OF_READOUTS)%nat ->
  exists t o14 o15,
    setupDataReadout (initial_table NUMBER_OF_READOUTS d) = Ret t
    /\ length t = NUMBER_OF_READOUTS
    /\ t !! 14%nat = Some o14
    /\ t !! 15%nat = Some o15
    /\ code o14 = code d
    /\ code o15 = code o14.
Proof.
  intros Hn.
  assert (Hm : exists m, NUMBER_OF_READOUTS = (19 + m)%nat)
    by (exists (NUMBER_OF_READOUTS - 19)%nat; lia).
  destruct Hm as [m ->].
  rewrite setupDataReadout_result.
  eexists _, _, _. split; [reflexivity|].
  split; [rewrite length_app, length_replicate; simpl; lia|].
  repeat split.
Qed.

Lemma unassigned_entries_share_code_witness :
  exists t o14 o15,
    setupDataReadout (initial_table 19 default_object) = Ret t
    /\ length t = 19%nat
    /\ t !! 14%nat = Some o14
    /\ t !! 15%nat = Some o15
    /\ code o14 = code default_object
    /\ code o15 = code o14.
Proof.
  apply (unassigned_entries_share_code 19 default_object). lia.
Defined.

(** With the zero-initialised array the shared code is empty, and the
    first line of a telegram, which carries no field code, is matched by
    element 14. *)
Example header_line_matches_unassigned_entry :
  first_match (line "/ISK5\2M550T-1012") registry19 = Some (14%nat, default_object).
Proof. reflexivity. Qed.

(* ===================================================================== *)
(** * Spans that do not fit the result buffer                             *)
(* ===================================================================== *)

(** C8, evaluated. [getValue] does not check the span it computes: when a
    delimiter is missing or the end delimiter precedes the start delimiter
    so that the span is negative, or when the span exceeds the 16 bytes of
    [res], [strncpy] is asked to write outside [res]. *)
Theorem getValue_unchecked_span (buffer : list Z) (maxlen startchar endchar : Z) :
  maxlen < 2 ^ 31 ->
  let s := findCharInArrayRev buffer startchar (maxlen - 2) in
  let e := findCharInArrayRev buffer endchar (maxlen - 2) in
  e - s - 1 < 0 \/ 16 < e - s - 1 ->
  getValue buffer maxlen startchar endchar = Undefined.
Proof.
  intros Hint s e Hspan. unfold getValue. fold s. fold e.
  assert (Hs : s = -1 \/ 0 <= s < maxlen - 2) by apply findCharInArrayRev_bounds.
  assert (He : e = -1 \/ 0 <= e < maxlen - 2) by apply findCharInArrayRev_bounds.
  destruct Hspan as [Hneg|Hbig].
  - now rewrite strncpy_into_negative by lia.
  - now rewrite strncpy_into_too_long by lia.
Qed.

(** The end delimiter ['*'] is missing from a line cut short. *)
Lemma getValue_unchecked_span_witness :
  getValue (line "1-0:1.7.0(00.378") 18 (char_of_ascii "(") (char_of_ascii "*") = Undefined.
Proof.
  apply (getValue_unchecked_span (line "1-0:1.7.0(00.378") 18
           (char_of_ascii "(") (char_of_ascii "*")).
  - lia.
  - vm_compute. left. reflexivity.
Defined.

(** The decoder itself on that line, and on a line whose end delimiter
    precedes the start delimiter. *)
Example decodeTelegram_truncated_line :
  decodeTelegram registry19 (line "1-0:1.7.0(00.378") 18 = Undefined.
Proof. reflexivity. Qed.

Example decodeTelegram_reversed_delimiters :
  decodeTelegram registry19 (line "1-0:1.7.0*00.378(kW") 21 = Undefined.
Proof. reflexivity. Qed.

(** A missing start delimiter with a span that fits: sixteen bytes are
    copied from the start of the line, they are no number, and the value 0
    replaces the stored one. *)
Example decodeTelegram_missing_start_delimiter :
  (t ← decodeTelegram registry19 (line "1-0:1.7.0(00.378*kW)") 22;
   decodeTelegram (fst (sendDataToBroker t.2)) (line "1-0:1.7.0 00.378*kW") 21)
  = Ret (false, <[2%nat := set_sendData true (set_value 0
                     (star (entry default_object "actual_consumption" "1-0:1.7.0")))]>
                  registry19).
Proof. vm_compute. reflexivity. Qed.

(* ===================================================================== *)
(** * The running checksum                                                *)
(* ===================================================================== *)

(** On a line without ['/'] and without ['!'] the checksum at the end of
    the call is the checksum of that line alone, from the seed 0. *)
Lemma currentCRC_after_data_line (telegram : list Z) (len : Z) :
  findCharInArrayRev telegram (char_of_ascii "/") len = -1 ->
  findCharInArrayRev telegram (char_of_ascii "!") len = -1 ->
  currentCRC_after telegram len = crc16 0 telegram len.
Proof.
  intros Hs He. unfold currentCRC_after, decodeTelegram_checksum.
  rewrite Hs, He. reflexivity.
Qed.

(** The result of the decoder does not depend on anything but the registry
    and the line: no checksum enters a call. *)
Lemma validCRCFound_on_end_line (telegram : list Z) (len : Z) :
  findCharInArrayRev telegram (char_of_ascii "/") len = -1 ->
  0 <= findCharInArrayRev telegram (char_of_ascii "!") len ->
  snd (decodeTelegram_checksum telegram len)
  = (strtol16 (strncpy_bytes
                 (advance telegram (findCharInArrayRev telegram (char_of_ascii "!") len + 1)) 4)
       mod 2 ^ 32 =? crc16 0 (str "!") 1).
Proof.
  intros Hs He. unfold decodeTelegram_checksum. rewrite Hs.
  destruct (findCharInArrayRev_rightmost telegram (char_of_ascii "!") len)
    as [Hnone|r Hr Hc Habove]; [lia|].
  destruct (Z.leb_spec 0 r) as [_|Hneg]; [|lia].
  change (0 <=? -1) with false. cbn [snd]. f_equal.
  unfold crc16. change (Z.to_nat 1) with 1%nat. cbn [crc16_loop].
  rewrite char_at_advance by lia. rewrite Z.add_0_r, Hc. reflexivity.
Qed.

(** C1, evaluated. No checksum enters a call of the decoder: on every line
    without ['/'] and ['!'] the checksum at the end of the call is the
    checksum of that line alone. For two consecutive lines of one telegram
    it is therefore not the checksum left by the first line folded with the
    bytes of the second. *)
Theorem checksum_not_carried_across_calls :
  (forall telegram len,
     findCharInArrayRev telegram (char_of_ascii "/") len = -1 ->
     findCharInArrayRev telegram (char_of_ascii "!") len = -1 ->
     currentCRC_after telegram len = crc16 0 telegram len)
  /\ (let l1 := line "/ISK5\2M550T-1012" in
      let l2 := line "1-0:1.7.0(00.378*kW)" in
      currentCRC_after l1 19 = crc16 0 l1 19
      /\ currentCRC_after l2 22 = crc16 0 l2 22
      /\ crc16 (currentCRC_after l1 19) l2 22 = 48803
      /\ currentCRC_after l2 22 = 49665).
Proof.
  split; [exact currentCRC_after_data_line|].
  cbv zeta. repeat split.
Qed.

(** C2, evaluated. The checksum [ECB7] that closes this telegram is the
    CRC16 of all its bytes from ['/'] through ['!'], yet the decoder
    reports the end line as invalid, whatever the registry; and it reports
    valid the end line [!18C0], [18C0] being the CRC16 of the single byte
    ['!'], whatever came before. With the registry of the sketch the call
    does not even return: the end line is matched by the element 14 and
    has no parenthesis. *)
Theorem valid_telegram_reported_invalid :
  let body := line "/ISK5\2M550T-1012" ++ line "" ++ line "1-0:1.7.0(00.378*kW)" ++ str "!" in
  crc16 0 body (Z.of_nat (length body)) = 0xECB7
  /\ snd (decodeTelegram_checksum (line "!ECB7") 7) = false
  /\ (forall t validCRCFound t',
        decodeTelegram t (line "!ECB7") 7 = Ret (validCRCFound, t') -> validCRCFound = false)
  /\ decodeTelegram [] (line "!ECB7") 7 = Ret (false, [])
  /\ snd (decodeTelegram_checksum (line "!18C0") 7) = true
  /\ decodeTelegram registry19 (line "!ECB7") 7 = Undefined.
Proof.
  split; [reflexivity|]. split; [reflexivity|]. split.
  - intros t b t' H. unfold decodeTelegram in H.
    change (decodeTelegram_checksum (line "!ECB7") 7) with (0, false) in H.
    cbn beta iota in H.
    destruct (decodeTelegram_loop (line "!ECB7") 7 t); cbn in H; congruence.
  - repeat split.
Qed.

(* ===================================================================== *)
(** * The text between the delimiters                                     *)
(* ===================================================================== *)



Lemma isNumber_loop_forallb (pre v post : list Z) :
  isNumber_loop (pre ++ v ++ post) (Z.of_nat (length pre)) (length v)
  = forallb (fun c => negb (not_numeric c)) v.
Proof.
  revert pre. induction v as [|c v IH]; intros pre; [reflexivity|].
  cbn [length isNumber_loop forallb].
  rewrite (char_at_lookup _ _ c)
    by (rewrite lookup_app_r by lia; now rewrite Nat.sub_diag).
  destruct (not_numeric c); [reflexivity|]. cbn [negb andb].
  replace (pre ++ (c :: v) ++ post) with ((pre ++ [c]) ++ v ++ post)
    by now rewrite <- app_assoc.
  replace (Z.of_nat (length pre) + 1) with (Z.of_nat (length (pre ++ [c])))
    by (rewrite length_app; simpl; lia).
  apply IH.
Qed.

Lemma isNumber_prefix (v post : list Z) :
  isNumber (v ++ post) (Z.of_nat (length v))
  = forallb (fun c => negb (not_numeric c)) v.
Proof.
  unfold isNumber. rewrite Nat2Z.id. exact (isNumber_loop_forallb [] v post).
Qed.

(** What [isNumber] lets through: digits, decimal points and NULs. *)
Lemma not_numeric_false (c : Z) :
  not_numeric c = false <-> (is_digit c = true \/ c = char_of_ascii "." \/ c = 0).
Proof.
  unfold not_numeric, is_digit.
  rewrite andb_false_iff, orb_false_iff, andb_false_iff, !negb_false_iff.
  rewrite andb_true_iff, !Z.ltb_ge, !Z.leb_le, !Z.eqb_eq. tauto.
Qed.

Lemma isNumber_chars (res : list Z) :
  isNumber res (Z.of_nat (length res)) = true ->
  Forall (fun c => is_digit c = true \/ c = char_of_ascii "." \/ c = 0) res.
Proof.
  rewrite <- (app_nil_r res) at 1. rewrite isNumber_prefix.
  rewrite forallb_forall. intros H. apply Forall_forall. intros c Hc.
  apply not_numeric_false. apply list_elem_of_In in Hc.
  specialize (H c Hc). now destruct (not_numeric c).
Qed.

(** The arrays that reach [atof]: [l] is an [int], the copy has stayed
    inside [res], and [isNumber] has accepted the [l] bytes copied. *)
Lemma atof_argument_chars (src res : list Z) (l : Z) :
  - 2 ^ 31 <= l < 2 ^ 31 ->
  strncpy_into 16 src l = Ret res -> isNumber res l = true ->
  Forall (fun c => is_digit c = true \/ c = char_of_ascii "." \/ c = 0) res.
Proof.
  intros Hint Hcopy Hnum.
  destruct (Z.lt_ge_cases l 0) as [Hneg|Hpos];
    [rewrite strncpy_into_negative in Hcopy by lia; discriminate|].
  destruct (Z.lt_ge_cases 16 l) as [Hbig|Hfit];
    [rewrite strncpy_into_too_long in Hcopy by lia; discriminate|].
  rewrite strncpy_into_in_range in Hcopy by lia. injection Hcopy as <-.
  apply Forall_app. split.
  - pose proof (isNumber_prefix (strncpy_bytes src (Z.to_nat l))
                  (replicate (Z.to_nat (16 - l)) 0)) as Hp.
    rewrite strncpy_bytes_length, Z2Nat.id in Hp by lia.
    rewrite Hp, forallb_forall in Hnum.
    apply Forall_forall. intros c Hc. apply not_numeric_false.
    apply list_elem_of_In in Hc. specialize (Hnum c Hc).
    now destruct (not_numeric c).
  - apply Forall_forall. intros c Hc. apply elem_of_replicate in Hc.
    right; right. tauto.
Qed.






(* ===================================================================== *)
(** * Texts that are no number                                            *)
(* ===================================================================== *)




(** The registry once the line [1-0:1.7.0(00.378*kW)] has been decoded and
    the reading published: element 2 holds 378 and is not dirty. *)
Lemma registry_after_good_line :
  (r ← decodeTelegram registry19 (line "1-0:1.7.0(00.378*kW)") 22;
   Ret (fst (sendDataToBroker (snd r))))
  = Ret (<[2%nat := set_value 378 (star (entry default_object "actual_consumption" "1-0:1.7.0"))]>
           registry19).
Proof. vm_compute. reflexivity. Qed.



(** A second decimal point is not rejected: it ends the number. *)
Example getValue_two_points :
  getValue (line "1-0:1.7.0(1.2.3*kW)") 21 (char_of_ascii "(") (char_of_ascii "*") = Ret 1200.
Proof. reflexivity. Qed.

(* ===================================================================== *)
(** * Texts that are a number                                             *)
(* ===================================================================== *)




(** The scenarios of the specification. *)
Example getValue_00_378_kW :
  getValue (line "1-0:1.7.0(00.378*kW)") 22 (char_of_ascii "(") (char_of_ascii "*")
  = Ret (spec_floor_scaled (str "00.378"))
  /\ spec_floor_scaled (str "00.378") = 378.
Proof. split; reflexivity. Qed.

Example getValue_0001 :
  getValue (line "0-0:96.14.0(0001)") 19 (char_of_ascii "(") (char_of_ascii ")")
  = Ret (spec_floor (str "0001"))
  /\ spec_floor (str "0001") = 1.
Proof. split; reflexivity. Qed.

Example getValue_000992_992_kWh :
  getValue (line "1-0:1.8.1(000992.992*kWh)") 28 (char_of_ascii "(") (char_of_ascii "*")
  = Ret 992992.
Proof. reflexivity. Qed.

Example decodeTelegram_actual_tarif_group :
  decodeTelegram registry19 (line "0-0:96.14.0(0001)") 19
  = Ret (false, <[13%nat := set_sendData true (set_value 1
                    (entry default_object "actual_tarif_group" "0-0:96.14.0"))]> registry19).
Proof. vm_compute. reflexivity. Qed.

(** A value that does not fit a [long]. *)
Example getValue_out_of_long :
  getValue (line "0-0:96.14.0(4294967296)") 25 (char_of_ascii "(") (char_of_ascii ")") = Undefined.
Proof. reflexivity. Qed.

(* ===================================================================== *)
(** * Sessions                                                            *)
(* ===================================================================== *)

(** With the registry of the sketch the session stops in the first line:
    the header is matched by the unassigned element 14 and holds no
    parenthesis. *)
Example readP1Serial_sample_session :
  readP1Serial registry19 sample_session = Undefined.
Proof. reflexivity. Qed.

(** With the fourteen leading elements alone every line is decoded, the
    reading is stored, and the telegram is not reported as complete although
    its checksum is right. *)
Example readP1Serial_sample_session_assigned_entries :
  readP1Serial (take 14 registry19) sample_session
  = Ret (false,
         <[2%nat := set_sendData true (set_value 378
                      (star (entry default_object "actual_consumption" "1-0:1.7.0")))]>
           (take 14 registry19),
         []).
Proof. vm_compute. reflexivity. Qed.

(* ===================================================================== *)
(** * Further properties of the checksum engine                           *)
(* ===================================================================== *)

Lemma crc16_loop_split (crc : Z) (buf : list Z) (pos : Z) (n m : nat) :
  crc16_loop crc buf pos (n + m)
  = crc16_loop (crc16_loop crc buf pos n) buf (pos + Z.of_nat n) m.
Proof.
  revert crc pos. induction n as [|n IH]; intros crc pos.
  - cbn. now rewrite Z.add_0_r.
  - cbn [Nat.add crc16_loop]. rewrite IH. f_equal. lia.
Qed.

Lemma crc16_loop_advance (crc : Z) (buf : list Z) (k pos : Z) (n : nat) :
  0 <= k -> 0 <= pos ->
  crc16_loop crc (advance buf k) pos n = crc16_loop crc buf (k + pos) n.
Proof.
  intros Hk. revert crc pos. induction n as [|n IH]; intros crc pos Hpos; [reflexivity|].
  cbn [crc16_loop]. rewrite char_at_advance by lia. rewrite IH by lia.
  f_equal. lia.
Qed.

(** X1. The checksum can be computed in pieces: the checksum of [n + m]
    bytes is the checksum of the last [m] of them seeded with the checksum
    of the first [n]. *)
Theorem crc16_in_pieces (crc : Z) (buf : list Z) (n m : Z) :
  0 <= n -> 0 <= m ->
  crc16 crc buf (n + m) = crc16 (crc16 crc buf n) (advance buf n) m.
Proof.
  intros Hn Hm. unfold crc16.
  rewrite Z2Nat.inj_add by lia. rewrite crc16_loop_split.
  rewrite crc16_loop_advance by lia.
  f_equal; lia.
Qed.

Lemma crc16_in_pieces_witness :
  crc16 0 (line "1-0:1.7.0(00.378*kW)") (10 + 12)
  = crc16 (crc16 0 (line "1-0:1.7.0(00.378*kW)") 10)
      (advance (line "1-0:1.7.0(00.378*kW)") 10) 12.
Proof.
  apply (crc16_in_pieces 0 (line "1-0:1.7.0(00.378*kW)") 10 12); lia.
Defined.

Lemma crc16_round_even (x : Z) : crc16_round (2 * x) = x.
Proof.
  rewrite crc16_round_spec. unfold spec_round.
  rewrite Z.odd_mul. cbn [Z.odd andb].
  rewrite Z.mul_comm. apply Z.div_mul. lia.
Qed.

Lemma crc16_rounds_shift (n : nat) (q : Z) :
  crc16_rounds n (2 ^ Z.of_nat n * q) = q.
Proof.
  revert q. induction n as [|n IH]; intros q.
  - cbn [crc16_rounds]. change (2 ^ Z.of_nat 0) with 1. lia.
  - cbn [crc16_rounds].
    replace (2 ^ Z.of_nat (S n) * q) with (2 * (2 ^ Z.of_nat n * q))
      by (rewrite Nat2Z.inj_succ, Z.pow_succ_r by lia; ring).
    rewrite crc16_round_even. apply IH.
Qed.

(** Folding the low byte of the accumulator into it shifts it down by
    eight bits. *)
Lemma crc16_byte_low_byte (crc : Z) :
  0 <= crc -> crc16_byte crc (crc mod 256) = crc / 256.
Proof.
  intros Hc. unfold crc16_byte.
  assert (Hlo : 0 <= crc mod 256 < 256) by (apply Z.mod_pos_bound; lia).
  rewrite lxor_low_byte by (unfold is_byte; lia).
  unfold spec_xor_low_byte. rewrite Z.lxor_nilpotent, Z.add_0_r.
  replace (crc - crc mod 256) with (2 ^ Z.of_nat 8 * (crc / 256))
    by (change (2 ^ Z.of_nat 8) with 256; pose proof (Z.div_mod crc 256); lia).
  apply crc16_rounds_shift.
Qed.

Lemma crc16_byte_same (b : Z) : crc16_byte b b = 0.
Proof. unfold crc16_byte. rewrite Z.lxor_nilpotent. reflexivity. Qed.

(** X2. A message followed by its own 16-bit checksum, low byte first, has
    the checksum 0. *)
Theorem crc16_residue (seed : Z) (bytes : list Z) :
  0 <= seed < 2 ^ 16 -> Forall is_byte bytes ->
  let c := crc16 seed bytes (Z.of_nat (length bytes)) in
  crc16 seed (bytes ++ [c mod 256; c / 256]) (Z.of_nat (length bytes) + 2) = 0.
Proof.
  intros Hs Hb c.
  replace (Z.of_nat (length bytes) + 2)
    with (Z.of_nat (length (bytes ++ [c mod 256; c / 256])))
    by (rewrite length_app; simpl; lia).
  rewrite crc16_app. fold c. rewrite crc16_fold. cbn [fold_left].
  assert (Hc : 0 <= c < 2 ^ 16).
  { unfold c. rewrite crc16_fold.
    apply fold_crc16_byte_bound; [lia|exact Hs|exact Hb]. }
  rewrite crc16_byte_low_byte by lia. apply crc16_byte_same.
Qed.

Lemma crc16_residue_witness :
  let c := crc16 0 (str "123456789") (Z.of_nat (length (str "123456789"))) in
  crc16 0 (str "123456789" ++ [c mod 256; c / 256])
    (Z.of_nat (length (str "123456789")) + 2) = 0.
Proof.
  apply (crc16_residue 0 (str "123456789")).
  - lia.
  - apply Forall_is_byte_str.
Defined.

(** X4. With the seed 0 the checksum does not see NUL bytes at the start
    of the data. *)
Theorem crc16_leading_nul (n : nat) (bytes : list Z) :
  crc16 0 (replicate n 0 ++ bytes) (Z.of_nat (n + length bytes))
  = crc16 0 bytes (Z.of_nat (length bytes)).
Proof.
  replace (n + length bytes)%nat with (length (replicate n 0 ++ bytes))
    by (rewrite length_app, length_replicate; reflexivity).
  rewrite !crc16_fold, fold_left_app.
  f_equal. induction n as [|n IH]; [reflexivity|].
  cbn [replicate fold_left]. exact IH.
Qed.

Lemma testbit_above (k y m : Z) :
  0 <= k -> 0 <= y < 2 ^ k -> k <= m -> Z.testbit y m = false.
Proof.
  intros Hk Hy Hm. destruct (Z.eq_dec y 0) as [->|?]; [apply Z.bits_0|].
  apply Z.bits_above_log2; [lia|].
  assert (Z.log2 y < k) by (apply Z.log2_lt_pow2; lia). lia.
Qed.

(** One round loses nothing of a 16-bit accumulator. *)
Lemma crc16_round_inverse (crc : Z) :
  0 <= crc < 2 ^ 16 -> crc16_unround (crc16_round crc) = crc.
Proof.
  intros Hc. rewrite crc16_round_spec. unfold spec_round, crc16_unround.
  assert (Hq : 0 <= crc / 2 < 2 ^ 15).
  { split; [apply Z.div_pos; lia|]. apply Z.div_lt_upper_bound; lia. }
  pose proof (Z.div_mod crc 2 ltac:(lia)) as Hdm.
  rewrite Zmod_odd in Hdm.
  destruct (Z.odd crc).
  - assert (Hr : 0 <= Z.lxor (crc / 2) 0xA001 < 2 ^ 16)
      by (apply lxor_bound; lia).
    destruct (Z.leb_spec (2 ^ 15) (Z.lxor (crc / 2) 0xA001)) as [_|Hlow].
    + rewrite Z.lxor_assoc, Z.lxor_nilpotent, Z.lxor_0_r. lia.
    + exfalso.
      assert (Hbit : Z.testbit (Z.lxor (crc / 2) 0xA001) 15 = false)
        by (apply (testbit_above 15); lia).
      rewrite Z.lxor_spec, (testbit_above 15 (crc / 2)) in Hbit by lia.
      discriminate.
  - destruct (Z.leb_spec (2 ^ 15) (crc / 2)); lia.
Qed.

Lemma crc16_rounds_injective (i : nat) (c c' : Z) :
  0 <= c < 2 ^ 16 -> 0 <= c' < 2 ^ 16 ->
  crc16_rounds i c = crc16_rounds i c' -> c = c'.
Proof.
  revert c c'. induction i as [|i IH]; intros c c' Hc Hc' H; [exact H|].
  cbn [crc16_rounds] in H.
  apply IH in H; try (apply crc16_round_bound; lia).
  rewrite <- (crc16_round_inverse c), <- (crc16_round_inverse c') by assumption.
  now rewrite H.
Qed.

Lemma lxor_cancel_l (a b b' : Z) : Z.lxor a b = Z.lxor a b' -> b = b'.
Proof.
  intros H.
  rewrite <- (Z.lxor_0_l b), <- (Z.lxor_0_l b'), <- (Z.lxor_nilpotent a).
  now rewrite !Z.lxor_assoc, H.
Qed.

Lemma byte_16bit (b : Z) : is_byte b -> 0 <= b < 2 ^ 16.
Proof. unfold is_byte. lia. Qed.

(** For a given accumulator, different bytes give different accumulators. *)
Lemma crc16_byte_injective_byte (crc b b' : Z) :
  0 <= crc < 2 ^ 16 -> is_byte b -> is_byte b' ->
  crc16_byte crc b = crc16_byte crc b' -> b = b'.
Proof.
  intros Hc Hb Hb' H. unfold crc16_byte in H.
  apply crc16_rounds_injective in H;
    try (apply lxor_bound; [lia|exact Hc|now apply byte_16bit]).
  now apply lxor_cancel_l in H.
Qed.

(** For a given byte, different accumulators give different accumulators. *)
Lemma crc16_byte_injective_crc (crc crc' b : Z) :
  0 <= crc < 2 ^ 16 -> 0 <= crc' < 2 ^ 16 -> is_byte b ->
  crc16_byte crc b = crc16_byte crc' b -> crc = crc'.
Proof.
  intros Hc Hc' Hb H. unfold crc16_byte in H.
  apply crc16_rounds_injective in H;
    try (apply lxor_bound; [lia|assumption|now apply byte_16bit]).
  rewrite (Z.lxor_comm crc), (Z.lxor_comm crc') in H.
  now apply lxor_cancel_l in H.
Qed.

Lemma fold_crc16_byte_injective (l : list Z) (crc crc' : Z) :
  0 <= crc < 2 ^ 16 -> 0 <= crc' < 2 ^ 16 -> Forall is_byte l ->
  fold_left crc16_byte l crc = fold_left crc16_byte l crc' -> crc = crc'.
Proof.
  intros Hc Hc' Hl. revert crc crc' Hc Hc'.
  induction Hl as [|b l Hb Hl IH]; intros crc crc' Hc Hc' H; [exact H|].
  cbn [fold_left] in H.
  apply IH in H; try (apply crc16_byte_bound; [lia|assumption|exact Hb]).
  now apply crc16_byte_injective_crc in H.
Qed.

(** X3. The checksum detects every corruption confined to one byte: two
    runs of bytes that differ in exactly one position never have the same
    checksum. *)
Theorem crc16_detects_one_byte (seed : Z) (before after : list Z) (b b' : Z) :
  0 <= seed < 2 ^ 16 ->
  Forall is_byte before -> Forall is_byte after -> is_byte b -> is_byte b' ->
  b <> b' ->
  crc16 seed (before ++ b :: after) (Z.of_nat (length (before ++ b :: after)))
  <> crc16 seed (before ++ b' :: after) (Z.of_nat (length (before ++ b' :: after))).
Proof.
  intros Hs Hbefore Hafter Hb Hb' Hne H.
  rewrite !crc16_fold, !fold_left_app in H. cbn [fold_left] in H.
  assert (Hc : 0 <= fold_left crc16_byte before seed < 2 ^ 16)
    by (apply fold_crc16_byte_bound; [lia|exact Hs|exact Hbefore]).
  apply fold_crc16_byte_injective in H;
    try (apply crc16_byte_bound; [lia|exact Hc|assumption]); [|exact Hafter].
  apply crc16_byte_injective_byte in H; try assumption.
  contradiction.
Qed.

Lemma crc16_detects_one_byte_witness :
  crc16 0 (str "1-0:1.7.0(00." ++ char_of_ascii "3" :: str "78*kW)")
    (Z.of_nat (length (str "1-0:1.7.0(00." ++ char_of_ascii "3" :: str "78*kW)")))
  <> crc16 0 (str "1-0:1.7.0(00." ++ char_of_ascii "8" :: str "78*kW)")
       (Z.of_nat (length (str "1-0:1.7.0(00." ++ char_of_ascii "8" :: str "78*kW)"))).
Proof.
  apply (crc16_detects_one_byte 0 (str "1-0:1.7.0(00.") (str "78*kW)")
           (char_of_ascii "3") (char_of_ascii "8")).
  - lia.
  - apply Forall_is_byte_str.
  - apply Forall_is_byte_str.
  - unfold is_byte. vm_compute. split; [discriminate|reflexivity].
  - unfold is_byte. vm_compute. split; [discriminate|reflexivity].
  - vm_compute. discriminate.
Defined.

(* ===================================================================== *)
(** * Further properties of the searches and tests                        *)
(* ===================================================================== *)

(** X5. [findCharInArrayRev] answers -1 exactly when the character does
    not occur among the first [len] bytes, and otherwise the position of
    its last occurrence among them. *)
Theorem findCharInArrayRev_characterised (array : list Z) (c len : Z) :
  (findCharInArrayRev array c len = -1
   <-> forall i, 0 <= i < len -> char_at array i <> c)
  /\ (forall r, 0 <= r ->
        (findCharInArrayRev array c len = r
         <-> r < len /\ char_at array r = c
             /\ forall i, r < i < len -> char_at array i <> c)).
Proof.
  pose proof (findCharInArrayRev_rightmost array c len) as Hfound.
  split.
  - split.
    + intros Heq. rewrite Heq in Hfound.
      inversion Hfound as [Hnone|r Hr]; [exact Hnone|lia].
    + intros Hnone.
      apply (rightmost_unique array c len); [exact Hfound|].
      now apply rightmost_none.
  - intros r Hr. split.
    + intros Heq. rewrite Heq in Hfound.
      inversion Hfound as [Hnone Hm1|r' Hr' Hc Habove]; [lia|].
      repeat split; [lia|exact Hc|exact Habove].
    + intros (Hlt & Hc & Habove).
      apply (rightmost_unique array c len); [exact Hfound|].
      apply rightmost_at; [lia|exact Hc|exact Habove].
Qed.

Lemma isNumber_loop_true (res : list Z) (i : Z) (n : nat) :
  isNumber_loop res i n = true
  <-> forall j, i <= j < i + Z.of_nat n -> not_numeric (char_at res j) = false.
Proof.
  revert i. induction n as [|n IH]; intros i.
  - cbn. split; [intros _ j Hj; lia|reflexivity].
  - cbn [isNumber_loop]. destruct (not_numeric (char_at res i)) eqn:Hi.
    + split; [discriminate|]. intros H.
      rewrite <- Hi. symmetry. apply H. lia.
    + rewrite IH. split.
      * intros H j Hj. destruct (Z.eq_dec j i) as [->|?]; [exact Hi|].
        apply H. lia.
      * intros H j Hj. apply H. lia.
Qed.

(** X6. [isNumber] accepts the first [len] bytes exactly when each of them
    is a digit, a decimal point or a NUL; it looks at no other byte, and it
    counts neither the points nor the digits (no byte at all is a number
    for it, and so are several points). *)
Theorem isNumber_characterised (res : list Z) (len : Z) :
  isNumber res len = true
  <-> forall i, 0 <= i < len ->
        is_digit (char_at res i) = true
        \/ char_at res i = char_of_ascii "." \/ char_at res i = 0.
Proof.
  unfold isNumber. rewrite isNumber_loop_true. split.
  - intros H i Hi. apply not_numeric_false. apply H. lia.
  - intros H j Hj. apply not_numeric_false. apply H. lia.
Qed.

Lemma strlen_nonzero (s : list Z) :
  Forall (fun c => c <> 0) (take (strlen s) s).
Proof.
  induction s as [|c s IH]; [constructor|].
  cbn [strlen]. destruct (Z.eqb_spec c 0) as [->|Hc]; [constructor|].
  cbn [take]. constructor; assumption.
Qed.

Lemma strncmp_eq_prefix (a b : list Z) :
  strncmp_eq a b (strlen b) = true <-> take (strlen b) b `prefix_of` a.
Proof.
  revert a. induction b as [|c b IH]; intros a.
  - cbn. split; [intros _; apply prefix_nil|reflexivity].
  - cbn [strlen]. destruct (Z.eqb_spec c 0) as [->|Hc].
    + cbn. split; [intros _; apply prefix_nil|reflexivity].
    + cbn [strncmp_eq take].
      change (char_at (c :: b) 0) with c.
      rewrite advance_cons_1.
      destruct a as [|x a].
      * change (char_at [] 0) with 0.
        destruct (Z.eqb_spec 0 c) as [?|_]; [lia|].
        split; [discriminate|]. intros [k Hk]. discriminate.
      * change (char_at (x :: a) 0) with x. rewrite advance_cons_1.
        destruct (Z.eqb_spec x c) as [->|Hne].
        -- destruct (Z.eqb_spec c 0) as [?|_]; [contradiction|].
           rewrite IH. split.
           ++ intros H. now apply prefix_cons.
           ++ intros H. now apply prefix_cons_inv_2 in H.
        -- split; [discriminate|]. intros H.
           apply prefix_cons_inv_1 in H. congruence.
Qed.

Lemma code_matches_prefix_iff (telegram : list Z) (o : TelegramDecodedObject) :
  code_matches telegram o = true <-> code_text o `prefix_of` telegram.
Proof. unfold code_matches, code_text. apply strncmp_eq_prefix. Qed.

(** X7. The test of the decoder's loop succeeds exactly when the code of
    the element, read as a C string, is a byte-for-byte prefix of the
    line. So an empty code matches every line, a line shorter than the code
    never matches, and of two codes that match the same line one is a
    prefix of the other. *)
Theorem code_matches_prefix (telegram : list Z) (o : TelegramDecodedObject) :
  (code_matches telegram o = true <-> code_text o `prefix_of` telegram)
  /\ (strlen (code o) = O -> code_matches telegram o = true)
  /\ (code_matches telegram o = true -> (strlen (code o) <= length telegram)%nat)
  /\ (forall o', code_matches telegram o = true -> code_matches telegram o' = true ->
        code_text o `prefix_of` code_text o' \/ code_text o' `prefix_of` code_text o).
Proof.
  split; [apply code_matches_prefix_iff|]. split; [|split].
  - intros H0. unfold code_matches. now rewrite H0.
  - intros H. apply code_matches_prefix_iff in H.
    apply prefix_length in H. unfold code_text in H.
    rewrite length_take in H.
    assert (Hle : (strlen (code o) <= length (code o))%nat).
    { clear. induction (code o) as [|c s IH]; [reflexivity|].
      cbn [strlen length]. destruct (c =? 0); lia. }
    lia.
  - intros o' H H'. apply code_matches_prefix_iff in H, H'.
    destruct (prefix_weak_total _ _ _ H H') as [Hp|Hp]; [now left|now right].
Qed.

(* ===================================================================== *)
(** * Further properties of the extraction                                *)
(* ===================================================================== *)

Lemma binary_round_aux_not_negative (m e : Z) (l : location) :
  not_negative (binary_round_aux prec emax false m e l).
Proof.
  unfold binary_round_aux.
  destruct (shr_fexp prec emax m e l) as [mrs e'].
  destruct (shr_fexp prec emax _ e' loc_Exact) as [mrs' e''].
  destruct (shr_m mrs'); cbn; [exact I| |exact I].
  destruct (e'' <=? emax - prec); cbn; [reflexivity|exact I].
Qed.

Lemma double_of_decimal_not_negative (n : Z) (k : nat) :
  not_negative (double_of_decimal n k).
Proof.
  unfold double_of_decimal. destruct n; cbn; try exact I.
  destruct (SFdiv_core_binary prec emax _ 0 _ 0) as [[mz ez] lz].
  apply binary_round_aux_not_negative.
Qed.

Lemma double_mul_1000_not_negative (d : double) :
  not_negative d -> not_negative (double_mul (double_of_int 1000) d).
Proof.
  intros Hd. unfold double_mul.
  change (double_of_int 1000) with (S754_finite false 8796093022208000 (-43)).
  destruct d as [s|s| |s m e]; cbn; try exact I.
  cbn in Hd. subst s. apply binary_round_aux_not_negative.
Qed.

Lemma double_to_long_range (d : double) (v : Z) :
  not_negative d -> double_to_long d = Ret v -> 0 <= v <= LONG_MAX.
Proof.
  intros Hd. unfold double_to_long.
  destruct (double_trunc d) as [x|] eqn:Hx; [|discriminate].
  destruct (Z.leb_spec LONG_MIN x), (Z.leb_spec x LONG_MAX); cbn; try discriminate.
  intros [= <-]. split; [|assumption].
  destruct d as [s|s| |s m e]; unfold double_trunc in Hx; try discriminate.
  - injection Hx as <-. lia.
  - cbn in Hd. subst s. injection Hx as <-.
    destruct (Z.leb_spec 0 e).
    + apply Z.mul_nonneg_nonneg; [lia|]. apply Z.pow_nonneg. lia.
    + apply Z.div_pos; [lia|]. apply Z.pow_pos_nonneg; lia.
Qed.

Lemma atof_not_negative (res : list Z) (d : double) :
  atof res = Ret d -> not_negative d.
Proof.
  unfold atof. destruct (atof_integer res 0) as [[n k]|]; [|discriminate].
  cbn. intros [= <-]. apply double_of_decimal_not_negative.
Qed.

Lemma getValue_value_range (buffer : list Z) (maxlen startchar endchar v : Z) :
  getValue buffer maxlen startchar endchar = Ret v -> 0 <= v <= LONG_MAX.
Proof.
  unfold getValue.
  destruct (strncpy_into 16 _ _) as [res|]; [|discriminate]. cbn.
  assert (H0 : 0 <= 0 <= LONG_MAX) by (unfold LONG_MAX; lia).
  destruct (endchar =? char_of_ascii "*").
  - destruct (isNumber res _); [|now intros [= <-]].
    destruct (atof res) as [d|] eqn:Hd; [|discriminate]. cbn.
    apply double_to_long_range, double_mul_1000_not_negative.
    apply (atof_not_negative _ _ Hd).
  - destruct (endchar =? char_of_ascii ")"); [|now intros [= <-]].
    destruct (isNumber res _); [|now intros [= <-]].
    destruct (atof res) as [d|] eqn:Hd; [|discriminate]. cbn.
    apply double_to_long_range. apply (atof_not_negative _ _ Hd).
Qed.

(** X8. Whatever the line and the delimiters, a value that [getValue]
    returns lies between 0 and the greatest [long]; with an end delimiter
    other than ['*'] and [')'] it is 0. *)
Theorem getValue_range (buffer : list Z) (maxlen startchar endchar v : Z) :
  getValue buffer maxlen startchar endchar = Ret v ->
  0 <= v <= LONG_MAX
  /\ (endchar <> char_of_ascii "*" -> endchar <> char_of_ascii ")" -> v = 0).
Proof.
  unfold getValue.
  destruct (strncpy_into 16 _ _) as [res|]; [|discriminate]. cbn.
  assert (H0 : 0 <= 0 <= LONG_MAX) by (unfold LONG_MAX; lia).
  destruct (Z.eqb_spec endchar (char_of_ascii "*")) as [Hstar|Hstar].
  - destruct (isNumber res _); [|intros [= <-]; split; [exact H0|contradiction]].
    destruct (atof res) as [d|] eqn:Hd; [|discriminate]. cbn.
    intros H. split; [|contradiction].
    apply (double_to_long_range _ _ (double_mul_1000_not_negative d (atof_not_negative _ _ Hd)) H).
  - destruct (Z.eqb_spec endchar (char_of_ascii ")")) as [Hpar|Hpar].
    + destruct (isNumber res _); [|intros [= <-]; split; [exact H0|contradiction]].
      destruct (atof res) as [d|] eqn:Hd; [|discriminate]. cbn.
      intros H. split; [|contradiction].
      apply (double_to_long_range _ _ (atof_not_negative _ _ Hd) H).
    + intros [= <-]. split; [exact H0|reflexivity].
Qed.

Lemma getValue_range_witness :
  0 <= 378 <= LONG_MAX
  /\ (char_of_ascii "*" <> char_of_ascii "*" ->
      char_of_ascii "*" <> char_of_ascii ")" -> 378 = 0).
Proof.
  apply (getValue_range (line "1-0:1.7.0(00.378*kW)") 22
           (char_of_ascii "(") (char_of_ascii "*") 378).
  vm_compute. reflexivity.
Defined.

(* ===================================================================== *)
(** * Further properties of the set-up                                    *)
(* ===================================================================== *)

Lemma setupDataReadout_short (t : table) :
  (length t < 19)%nat -> setupDataReadout t = Undefined.
Proof.
  intros Hlen.
  do 19 (destruct t as [|? t]; [vm_compute; reflexivity|]).
  cbn in Hlen. lia.
Qed.

(** What the set-up keeps of an array of at least 19 elements. *)
Lemma setupDataReadout_long (t : table) :
  (19 <= length t)%nat ->
  exists t',
    setupDataReadout t = Ret t'
    /\ length t' = length t
    /\ value <$> t' = value <$> t
    /\ sendData <$> t' = sendData <$> t
    /\ startChar <$> t' = startChar <$> t
    /\ take 4 (drop 14 t') = take 4 (drop 14 t)
    /\ drop 19 t' = drop 19 t
    /\ setupDataReadout t' = Ret t'.
Proof.
  intros Hlen.
  do 19 (destruct t as [|? t]; [cbn in Hlen; lia|]).
  eexists. split; [vm_compute; reflexivity|].
  repeat split.
Qed.

(** X9. The set-up is defined exactly for an array of at least 19
    elements. It then keeps the length of the array and the value, the
    flag and the start delimiter of every element, and it leaves the
    elements 14 to 17 and those from 19 on as they were. *)
Theorem setupDataReadout_defined (t : table) :
  (setupDataReadout t = Undefined <-> (length t < 19)%nat)
  /\ (forall t', setupDataReadout t = Ret t' ->
        length t' = length t
        /\ value <$> t' = value <$> t
        /\ sendData <$> t' = sendData <$> t
        /\ startChar <$> t' = startChar <$> t
        /\ take 4 (drop 14 t') = take 4 (drop 14 t)
        /\ drop 19 t' = drop 19 t).
Proof.
  destruct (Nat.lt_ge_cases (length t) 19) as [Hshort|Hlong].
  - rewrite (setupDataReadout_short t Hshort). split; [tauto|discriminate].
  - destruct (setupDataReadout_long t Hlong) as (t1 & Hrun & Hl & Hv & Hs & Hc & Hm & Hr & _).
    rewrite Hrun. split.
    + split; [discriminate|lia].
    + intros t' [= <-]. tauto.
Qed.

(** X10. Running the set-up a second time changes nothing. *)
Theorem setupDataReadout_idempotent (t t' : table) :
  setupDataReadout t = Ret t' -> setupDataReadout t' = Ret t'.
Proof.
  intros Hrun.
  destruct (Nat.lt_ge_cases (length t) 19) as [Hshort|Hlong].
  - rewrite (setupDataReadout_short t Hshort) in Hrun. discriminate.
  - destruct (setupDataReadout_long t Hlong) as (t1 & Hrun1 & _ & _ & _ & _ & _ & _ & Hagain).
    rewrite Hrun1 in Hrun. injection Hrun as <-. exact Hagain.
Qed.

Lemma setupDataReadout_idempotent_witness :
  setupDataReadout registry19 = Ret registry19.
Proof.
  apply (setupDataReadout_idempotent (initial_table 19 default_object) registry19).
  vm_compute. reflexivity.
Defined.




(* ===================================================================== *)
(** * Further properties of the decoder                                   *)
(* ===================================================================== *)

(** The two ways a call of the decoder returns. *)
Lemma decodeTelegram_cases (t t' : table) (telegram : list Z) (len : Z) (valid : bool) :
  decodeTelegram t telegram len = Ret (valid, t') ->
  valid = snd (decodeTelegram_checksum telegram len)
  /\ ((first_match telegram t = None /\ t' = t)
      \/ exists i o v,
           first_match telegram t = Some (i, o)
           /\ getValue telegram len (startChar o) (endChar o) = Ret v
           /\ t' = <[i := store_value v o]> t).
Proof.
  unfold decodeTelegram.
  destruct (decodeTelegram_checksum telegram len) as [crc ok].
  rewrite decodeTelegram_loop_first_match.
  destruct (first_match telegram t) as [[i o]|].
  - destruct (getValue telegram len (startChar o) (endChar o)) as [v|] eqn:Hv;
      [|discriminate].
    cbn. intros [= <- <-]. split; [reflexivity|].
    right. exists i, o, v. auto.
  - cbn. intros [= <- <-]. split; [reflexivity|]. now left.
Qed.

Lemma store_value_configuration (v : Z) (o : TelegramDecodedObject) :
  same_configuration o (store_value v o).
Proof.
  unfold store_value, same_configuration.
  destruct (negb (v =? value o)); cbn; auto.
Qed.

Lemma same_configuration_refl (o : TelegramDecodedObject) : same_configuration o o.
Proof. unfold same_configuration. auto. Qed.


Lemma same_configuration_insert (t : table) (i : nat) (o x : TelegramDecodedObject) :
  t !! i = Some o -> same_configuration o x ->
  length (<[i := x]> t) = length t /\ Forall2 same_configuration t (<[i := x]> t).
Proof.
  intros Hl Hconf. split; [apply length_insert|].
  apply Forall2_same_length_lookup. split; [now rewrite length_insert|].
  intros j a b Ha Hb.
  destruct (Nat.eq_dec i j) as [<-|Hij].
  - rewrite list_lookup_insert_eq in Hb by (eapply lookup_lt_Some; eauto).
    injection Hb as <-. rewrite Hl in Ha. now injection Ha as <-.
  - rewrite list_lookup_insert_ne in Hb by exact Hij.
    rewrite Ha in Hb. injection Hb as <-. apply same_configuration_refl.
Qed.

Lemma same_configuration_diag (t : table) : Forall2 same_configuration t t.
Proof.
  apply Forall_Forall2_diag, Forall_forall. intros; apply same_configuration_refl.
Qed.

(** X13. The decoder never touches the configuration of the registry: the
    number of elements and the name, the code and the two delimiters of
    every element are the same after a call. *)
Theorem decodeTelegram_keeps_configuration
    (t t' : table) (telegram : list Z) (len : Z) (validCRCFound : bool) :
  decodeTelegram t telegram len = Ret (validCRCFound, t') ->
  length t' = length t /\ Forall2 same_configuration t t'.
Proof.
  intros Hrun.
  destruct (decodeTelegram_cases _ _ _ _ _ Hrun) as [_ [[_ ->]|(i & o & v & Hm & Hv & ->)]].
  - split; [reflexivity|apply same_configuration_diag].
  - destruct (first_match_lookup _ _ _ _ Hm) as (Hl & _ & _).
    apply (same_configuration_insert t i o); [exact Hl|].
    apply store_value_configuration.
Qed.

Lemma decodeTelegram_keeps_configuration_witness :
  length (<[2%nat := set_sendData true (set_value 378
              (star (entry default_object "actual_consumption" "1-0:1.7.0")))]> registry19)
  = length registry19
  /\ Forall2 same_configuration registry19
       (<[2%nat := set_sendData true (set_value 378
             (star (entry default_object "actual_consumption" "1-0:1.7.0")))]> registry19).
Proof.
  apply (decodeTelegram_keeps_configuration registry19 _
           (line "1-0:1.7.0(00.378*kW)") 22 false).
  vm_compute. reflexivity.
Defined.

(** X14. The decoder never clears a flag, and it sets a flag exactly when
    it changes the value: an element that was dirty stays dirty, an element
    whose value changes is dirty afterwards, and a flag that changes tells
    a value that changed. *)
Theorem decodeTelegram_flags
    (t t' : table) (telegram : list Z) (len : Z) (validCRCFound : bool)
    (j : nat) (o o' : TelegramDecodedObject) :
  decodeTelegram t telegram len = Ret (validCRCFound, t') ->
  t !! j = Some o -> t' !! j = Some o' ->
  (sendData o = true -> sendData o' = true)
  /\ (value o' <> value o -> sendData o' = true)
  /\ (sendData o' <> sendData o -> value o' <> value o).
Proof.
  intros Hrun Hj Hj'.
  assert (Hsame : forall a b : TelegramDecodedObject,
             b = a -> (sendData a = true -> sendData b = true)
                      /\ (value b <> value a -> sendData b = true)
                      /\ (sendData b <> sendData a -> value b <> value a)).
  { intros a b ->. repeat split; auto; intros H; now contradiction H. }
  destruct (decodeTelegram_cases _ _ _ _ _ Hrun) as [_ [[_ ->]|(i & x & v & Hm & Hv & ->)]].
  - apply Hsame. congruence.
  - destruct (first_match_lookup _ _ _ _ Hm) as (Hl & _ & _).
    destruct (Nat.eq_dec i j) as [<-|Hij].
    + rewrite list_lookup_insert_eq in Hj' by (eapply lookup_lt_Some; eauto).
      injection Hj' as <-. rewrite Hl in Hj. injection Hj as <-.
      unfold store_value. destruct (Z.eqb_spec v (value x)) as [Heq|Hne]; cbn.
      * apply Hsame. reflexivity.
      * repeat split; auto.
    + rewrite list_lookup_insert_ne in Hj' by exact Hij.
      apply Hsame. congruence.
Qed.

Lemma decodeTelegram_flags_witness :
  let o := star (entry default_object "actual_consumption" "1-0:1.7.0") in
  let o' := set_sendData true (set_value 378 o) in
  (sendData o = true -> sendData o' = true)
  /\ (value o' <> value o -> sendData o' = true)
  /\ (sendData o' <> sendData o -> value o' <> value o).
Proof.
  apply (decodeTelegram_flags registry19
           (<[2%nat := set_sendData true (set_value 378
                 (star (entry default_object "actual_consumption" "1-0:1.7.0")))]> registry19)
           (line "1-0:1.7.0(00.378*kW)") 22 false 2).
  - vm_compute. reflexivity.
  - reflexivity.
  - reflexivity.
Defined.

Lemma first_match_insert (telegram : list Z) (t : table) (i : nat)
    (o o' : TelegramDecodedObject) :
  first_match telegram t = Some (i, o) -> code o' = code o ->
  first_match telegram (<[i := o']> t) = Some (i, o').
Proof.
  revert i. induction t as [|x rest IH]; intros i Hm Hcode; [discriminate|].
  cbn [first_match] in Hm. destruct (code_matches telegram x) eqn:Hx.
  - injection Hm as <- <-.
    change (<[O := o']> (x :: rest)) with (o' :: rest). cbn [first_match].
    unfold code_matches in *. rewrite Hcode. now rewrite Hx.
  - destruct (first_match telegram rest) as [[k y]|] eqn:Hrest; [|discriminate].
    injection Hm as <- <-.
    change (<[S k := o']> (x :: rest)) with (x :: <[k := o']> rest).
    cbn [first_match]. rewrite Hx.
    now rewrite (IH k eq_refl Hcode).
Qed.

Lemma store_value_again (v : Z) (o : TelegramDecodedObject) :
  store_value v (store_value v o) = store_value v o.
Proof.
  destruct (Z.eq_dec v (value o)) as [->|Hne].
  - now rewrite !store_value_same.
  - rewrite (store_value_different v o Hne).
    unfold store_value. cbn. now rewrite Z.eqb_refl.
Qed.

(** X15. Decoding the same line a second time changes nothing: the call
    returns the same result and leaves the registry as the first call left
    it. *)
Theorem decodeTelegram_twice
    (t t' : table) (telegram : list Z) (len : Z) (validCRCFound : bool) :
  decodeTelegram t telegram len = Ret (validCRCFound, t') ->
  decodeTelegram t' telegram len = Ret (validCRCFound, t').
Proof.
  intros Hrun.
  destruct (decodeTelegram_cases _ _ _ _ _ Hrun) as [-> [[_ ->]|(i & o & v & Hm & Hv & ->)]].
  - rewrite Hrun. reflexivity.
  - assert (Hconf : same_configuration o (store_value v o))
      by apply store_value_configuration.
    destruct Hconf as (_ & Hcode & Hstart & Hend).
    rewrite (decodeTelegram_matched _ telegram len i (store_value v o) v).
    + now rewrite store_value_again, list_insert_insert_eq.
    + now apply (first_match_insert _ _ _ o).
    + now rewrite Hstart, Hend.
Qed.

Lemma decodeTelegram_twice_witness :
  decodeTelegram
    (<[2%nat := set_sendData true (set_value 378
          (star (entry default_object "actual_consumption" "1-0:1.7.0")))]> registry19)
    (line "1-0:1.7.0(00.378*kW)") 22
  = Ret (false,
         <[2%nat := set_sendData true (set_value 378
               (star (entry default_object "actual_consumption" "1-0:1.7.0")))]> registry19).
Proof.
  apply (decodeTelegram_twice registry19 _ (line "1-0:1.7.0(00.378*kW)") 22 false).
  vm_compute. reflexivity.
Defined.



(** X17. Readings stay in range: when every value of the registry lies
    between 0 and the greatest [long], so does every value after a call of
    the decoder. *)
Theorem decodeTelegram_values_in_range
    (t t' : table) (telegram : list Z) (len : Z) (validCRCFound : bool) :
  Forall value_in_range t ->
  decodeTelegram t telegram len = Ret (validCRCFound, t') ->
  Forall value_in_range t'.
Proof.
  intros Hrange Hrun.
  destruct (decodeTelegram_cases _ _ _ _ _ Hrun) as [_ [[_ ->]|(i & o & v & Hm & Hv & ->)]];
    [exact Hrange|].
  destruct (first_match_lookup _ _ _ _ Hm) as (Hl & _ & _).
  apply Forall_insert; [exact Hrange|].
  unfold value_in_range, store_value.
  destruct (negb (v =? value o)); cbn.
  - apply (getValue_value_range _ _ _ _ _ Hv).
  - rewrite Forall_lookup in Hrange. apply (Hrange i o Hl).
Qed.

Lemma decodeTelegram_values_in_range_witness :
  Forall value_in_range
    (<[2%nat := set_sendData true (set_value 378
          (star (entry default_object "actual_consumption" "1-0:1.7.0")))]> registry19).
Proof.
  apply (decodeTelegram_values_in_range registry19 _ (line "1-0:1.7.0(00.378*kW)") 22 false).
  - apply Forall_forall. intros o Ho.
    assert (Hv : value o = 0); [|unfold value_in_range, LONG_MAX; rewrite Hv; lia].
    unfold registry19 in Ho. cbn in Ho.
    repeat (apply elem_of_cons in Ho; destruct Ho as [->|Ho]; [reflexivity|]).
    now apply elem_of_nil in Ho.
  - vm_compute. reflexivity.
Defined.

(* ===================================================================== *)
(** * Properties of the publisher and of the full update                  *)
(* ===================================================================== *)














(* ===================================================================== *)
(** * Properties of the session driver                                    *)
(* ===================================================================== *)




(* ===================================================================== *)
(** * Properties of [sendMetric]                                          *)
(* ===================================================================== *)










(* ===================================================================== *)
(** * Properties of [blinkLed]                                            *)
(* ===================================================================== *)

Lemma blinkLed_loop_counts (n : nat) (i numberOfBlinks ms : Z) :
  i + Z.of_nat n = numberOfBlinks ->
  let events := blinkLed_loop n i numberOfBlinks ms in
  length (List.filter (is_write true) events) = n
  /\ length (List.filter (is_write false) events) = n
  /\ length (List.filter is_delay events) = (2 * n - 1)%nat
  /\ total_delay events = Z.of_nat (2 * n - 1) * ms
  /\ (0 < n -> last events = Some (DigitalWrite false))%nat.
Proof.
  revert i. induction n as [|n IH]; intros i Hi.
  - cbn. repeat split; lia.
  - cbn [blinkLed_loop].
    destruct (IH (i + 1) ltac:(lia)) as (Hhigh & Hlow & Hdelay & Htotal & Hlast).
    destruct (Z.eqb_spec i (numberOfBlinks - 1)) as [Heq|Hne].
    + assert (n = O) by lia. subst n. cbn. repeat split; lia.
    + assert (Hn : (0 < n)%nat) by lia. cbn [negb app].
      cbn [List.filter is_write is_delay Bool.eqb length total_delay].
      rewrite Hhigh, Hlow, Hdelay, Htotal.
      repeat split; try lia.
      intros _. cbn [last]. rewrite <- (Hlast Hn).
      destruct (blinkLed_loop n (i + 1) numberOfBlinks ms) eqn:Hrest; [|reflexivity].
      cbn in Hhigh. lia.
Qed.

(** X24. [blinkLed] does nothing for a count that is not positive. For a
    count [n] of at least one it switches the LED on [n] times and off [n]
    times, waits [2 n - 1] times (there is no wait after the last blink),
    [(2 n - 1) * msBetweenBlinks] milliseconds in all, and leaves the LED
    off. *)
Theorem blinkLed_events (numberOfBlinks msBetweenBlinks : Z) :
  let events := blinkLed numberOfBlinks msBetweenBlinks in
  (numberOfBlinks <= 0 -> events = [])
  /\ (1 <= numberOfBlinks ->
      Z.of_nat (length (List.filter (is_write true) events)) = numberOfBlinks
      /\ Z.of_nat (length (List.filter (is_write false) events)) = numberOfBlinks
      /\ Z.of_nat (length (List.filter is_delay events)) = 2 * numberOfBlinks - 1
      /\ total_delay events = (2 * numberOfBlinks - 1) * msBetweenBlinks
      /\ last events = Some (DigitalWrite false)).
Proof.
  cbv zeta. unfold blinkLed. split.
  - intros Hle. replace (Z.to_nat numberOfBlinks) with O by lia. reflexivity.
  - intros Hge.
    destruct (blinkLed_loop_counts (Z.to_nat numberOfBlinks) 0 numberOfBlinks
                msBetweenBlinks ltac:(lia))
      as (Hhigh & Hlow & Hdelay & Htotal & Hlast).
    rewrite Hhigh, Hlow, Hdelay, Htotal.
    replace (Z.of_nat (2 * Z.to_nat numberOfBlinks - 1)) with (2 * numberOfBlinks - 1) by lia.
    repeat split; try lia.
    apply Hlast. lia.
Qed.

(* ===================================================================== *)
(** * Properties of [mqttReconnect]                                       *)
(* ===================================================================== *)

Lemma mqttReconnect_loop_connected (fuel : nat) (connect : nat -> bool)
    (MAX retries : Z) (calls : nat) :
  mqttReconnect_loop fuel connect MAX true retries calls = (true, retries, []).
Proof. destruct fuel; reflexivity. Qed.

Lemma first_success_from (connect : nat -> bool) (from n k : nat) :
  first_success connect from n = Some k ->
  (from <= k < from + n)%nat /\ connect k = true
  /\ forall j, (from <= j < k)%nat -> connect j = false.
Proof.
  revert from. induction n as [|n IH]; intros from H; [discriminate|].
  cbn [first_success] in H. destruct (connect from) eqn:Hc.
  - injection H as <-. repeat split; [lia|lia|exact Hc|]. intros j Hj. lia.
  - destruct (IH (S from) H) as (Hk & Hok & Hbefore).
    repeat split; [lia|lia|exact Hok|].
    intros j Hj. destruct (Nat.eq_dec j from) as [->|?]; [exact Hc|].
    apply Hbefore. lia.
Qed.

Lemma first_success_none (connect : nat -> bool) (from n : nat) :
  first_success connect from n = None ->
  forall j, (from <= j < from + n)%nat -> connect j = false.
Proof.
  revert from. induction n as [|n IH]; intros from H j Hj; [lia|].
  cbn [first_success] in H. destruct (connect from) eqn:Hc; [discriminate|].
  destruct (Nat.eq_dec j from) as [->|?]; [exact Hc|].
  apply (IH (S from) H). lia.
Qed.

(** The loop from a disconnected client with [n] attempts left. *)
Lemma mqttReconnect_loop_disconnected (connect : nat -> bool) (MAX : Z) (n : nat) :
  forall (fuel : nat) (retries : Z) (calls : nat),
    MAX - retries = Z.of_nat n -> (n < fuel)%nat ->
    mqttReconnect_loop fuel connect MAX false retries calls
    = match first_success connect calls n with
      | Some k =>
          (true, retries + Z.of_nat (k - calls) + 1,
           concat (replicate (k - calls) [Connect false; Delay5000])
           ++ [Connect true; PublishAlive])
      | None =>
          (false, MAX, concat (replicate n [Connect false; Delay5000]))
      end.
Proof.
  induction n as [|n IH]; intros fuel retries calls Hleft Hfuel.
  - destruct fuel as [|fuel]; [lia|]. cbn [mqttReconnect_loop first_success].
    destruct (Z.ltb_spec retries MAX); [lia|]. cbn. f_equal. f_equal. lia.
  - destruct fuel as [|fuel]; [lia|]. cbn [mqttReconnect_loop first_success].
    destruct (Z.ltb_spec retries MAX); [|lia]. cbn [negb andb].
    destruct (connect calls) eqn:Hc.
    + rewrite mqttReconnect_loop_connected. rewrite Nat.sub_diag. cbn.
      f_equal. f_equal. lia.
    + rewrite (IH fuel (retries + 1) (S calls)) by lia.
      destruct (first_success connect (S calls) n) as [k|] eqn:Hk.
      * destruct (first_success_from _ _ _ _ Hk) as (Hrange & _ & _).
        replace (k - calls)%nat with (S (k - S calls)) by lia.
        cbn [replicate concat app]. f_equal. f_equal. lia.
      * reflexivity.
Qed.

(** X25. [mqttReconnect] calls [connect] only while the client is not
    connected, at most [MQTT_MAX_RECONNECT_TRIES] times, waiting five
    seconds after each failure, and stops at the first success, after which
    it publishes the "alive" message. It returns [true] when the client was
    connected already (and the limit is positive) or when a call before the
    last permitted one succeeds. When the last permitted call is the one
    that succeeds, the client is connected and the message published, yet
    the function returns [false]. *)
Theorem mqttReconnect_outcome (connect : nat -> bool) (MQTT_MAX_RECONNECT_TRIES : Z) :
  0 <= MQTT_MAX_RECONNECT_TRIES ->
  mqttReconnect connect MQTT_MAX_RECONNECT_TRIES true
  = (0 <? MQTT_MAX_RECONNECT_TRIES, true, [])
  /\ mqttReconnect connect MQTT_MAX_RECONNECT_TRIES false
     = match first_success connect 0 (Z.to_nat MQTT_MAX_RECONNECT_TRIES) with
       | Some k =>
           (Z.of_nat k + 1 <? MQTT_MAX_RECONNECT_TRIES, true,
            concat (replicate k [Connect false; Delay5000])
            ++ [Connect true; PublishAlive])
       | None =>
           (false, false,
            concat (replicate (Z.to_nat MQTT_MAX_RECONNECT_TRIES)
                      [Connect false; Delay5000]))
       end
  /\ (forall k,
        first_success connect 0 (Z.to_nat MQTT_MAX_RECONNECT_TRIES) = Some k
        <-> (Z.of_nat k < MQTT_MAX_RECONNECT_TRIES /\ connect k = true
             /\ forall j, (j < k)%nat -> connect j = false)).
Proof.
  intros Hmax. unfold mqttReconnect. split; [|split].
  - rewrite mqttReconnect_loop_connected. f_equal. f_equal.
    destruct (Z.leb_spec MQTT_MAX_RECONNECT_TRIES 0), (Z.ltb_spec 0 MQTT_MAX_RECONNECT_TRIES);
      try reflexivity; lia.
  - rewrite (mqttReconnect_loop_disconnected connect MQTT_MAX_RECONNECT_TRIES
               (Z.to_nat MQTT_MAX_RECONNECT_TRIES)) by lia.
    destruct (first_success connect 0 (Z.to_nat MQTT_MAX_RECONNECT_TRIES)) as [k|] eqn:Hk.
    + rewrite Nat.sub_0_r. f_equal. f_equal.
      destruct (Z.leb_spec MQTT_MAX_RECONNECT_TRIES (0 + Z.of_nat k + 1)),
        (Z.ltb_spec (Z.of_nat k + 1) MQTT_MAX_RECONNECT_TRIES); try reflexivity; lia.
    + f_equal. f_equal. now rewrite Z.leb_refl.
  - intros k. split.
    + intros Hk. destruct (first_success_from _ _ _ _ Hk) as (Hrange & Hok & Hbefore).
      repeat split; [lia|exact Hok|]. intros j Hj. apply Hbefore. lia.
    + intros (Hrange & Hok & Hbefore).
      destruct (first_success connect 0 (Z.to_nat MQTT_MAX_RECONNECT_TRIES)) as [k'|] eqn:Hk'.
      * destruct (first_success_from _ _ _ _ Hk') as (Hrange' & Hok' & Hbefore').
        f_equal. destruct (Nat.lt_trichotomy k k') as [Hlt|[Heq|Hgt]]; [|exact (eq_sym Heq)|].
        -- rewrite (Hbefore' k) in Hok by lia. discriminate.
        -- rewrite (Hbefore k') in Hok' by lia. discriminate.
      * rewrite (first_success_none _ _ _ Hk' k) in Hok by lia. discriminate.
Qed.

(** The third of three permitted calls succeeds: connected, "alive"
    published, and the result is [false]. *)
Lemma mqttReconnect_outcome_witness :
  mqttReconnect (fun k => Nat.eqb k 2) 3 true = (0 <? 3, true, [])
  /\ mqttReconnect (fun k => Nat.eqb k 2) 3 false
     = match first_success (fun k => Nat.eqb k 2) 0 (Z.to_nat 3) with
       | Some k =>
           (Z.of_nat k + 1 <? 3, true,
            concat (replicate k [Connect false; Delay5000])
            ++ [Connect true; PublishAlive])
       | None =>
           (false, false, concat (replicate (Z.to_nat 3) [Connect false; Delay5000]))
       end
  /\ (forall k,
        first_success (fun k => Nat.eqb k 2) 0 (Z.to_nat 3) = Some k
        <-> (Z.of_nat k < 3 /\ Nat.eqb k 2 = true
             /\ forall j, (j < k)%nat -> Nat.eqb j 2 = false)).
Proof.
  apply (mqttReconnect_outcome (fun k => Nat.eqb k 2) 3). lia.
Defined.

Example mqttReconnect_last_attempt :
  mqttReconnect (fun k => Nat.eqb k 2) 3 false
  = (false, true,
     [Connect false; Delay5000; Connect false; Delay5000; Connect true; PublishAlive]).
Proof. reflexivity. Qed.




Example publish_actual_consumption :
  publish "sensors/power/p1meter" [("actual_consumption"%string, 378)]
  = Ret [("sensors/power/p1meter/actual_consumption"%string, str "378")].
Proof. reflexivity. Qed.
